(** * pandas-genomics: genotype encodings and the DataFrame accessor

    A shallow embedding of [pandas_genomics/accessors/dataframe_accessor.py]
    (class [GenotypeDataframeAccessor]) together with the part of the
    genotype column type it delegates to.  Python exceptions are modelled
    by an error monad, NaN / pd.NA by an explicit "no value" case. *)

From Stdlib Require Import List String Bool Arith ZArith QArith Lia Permutation.
Import ListNotations.
Close Scope Q_scope.
Open Scope nat_scope.
Open Scope string_scope.

(* ================================================================== *)
(** * Variants and genotype calls *)
(* ================================================================== *)

(** Modelled from the spec: the Variant Descriptor (section 3), with the
    fields the test fixtures pass to [Variant]; [ploidy] defaults to 2. *)
Record Variant : Type := mkVariant {
  chromosome : string;
  position : nat;
  id : string;
  ref : string;
  alt : list string;
  ploidy : nat
}.

(** All known alleles: the reference first, then the alternates in order,
    so that allele index 0 is the reference. *)
Definition alleles (v : Variant) : list string := ref v :: alt v.

(** Modelled from the spec: a Genotype Call (section 3), one slot per
    allele copy, each slot an allele index or unknown ([None]). *)
Definition Genotype : Type := list (option nat).

(** Index of a symbol in a list of symbols (first occurrence). *)
Fixpoint index_of (s : string) (xs : list string) : option nat :=
  match xs with
  | [] => None
  | x :: xs' =>
      if String.eqb s x then Some 0%nat
      else option_map S (index_of s xs')
  end.

(** Modelled from the spec: [Variant.make_genotype] is not part of the
    accessor module; the test fixture [encoding_df] calls it with two, one
    or no allele symbols.  The given symbols fill the first slots, the
    remaining slots up to the ploidy are unknown. *)
Fixpoint make_slots (v : Variant) (symbols : list string) (n : nat)
  : Genotype :=
  match n with
  | O => []
  | S n' =>
      match symbols with
      | [] => None :: make_slots v [] n'
      | s :: rest => index_of s (alleles v) :: make_slots v rest n'
      end
  end.

Definition make_genotype (v : Variant) (symbols : list string) : Genotype :=
  make_slots v symbols (ploidy v).

(** A genotype column: every call belongs to the one variant of the
    column's dtype. *)
Record GenotypeArray : Type := mkGenotypeArray {
  variant : Variant;
  allele_idxs : list Genotype
}.

(* ================================================================== *)
(** * Python results: a value, or a raised exception *)
(* ================================================================== *)

(** The pandas dtypes a column can carry, as far as the accessor
    distinguishes them: [GenotypeDtype.is_dtype] holds of the first
    constructor only. *)
Inductive dtype : Type :=
| GenotypeDtype (v : Variant)
| OtherDtype (name : string).

Definition is_dtype (dt : dtype) : bool :=
  match dt with
  | GenotypeDtype _ => true
  | OtherDtype _ => false
  end.

Module Py.

(** The exceptions raised on the paths modelled below. *)
Inductive exn : Type :=
| AttributeError_incompatible (incorrect : list (string * dtype))
    (* "Incompatible datatypes: all columns must be a GenotypeDtype: ..." *)
| AttributeError_no_attribute (type_name attr : string)
    (* "'list' object has no attribute 'iterrows'" *)
| ValueError_missing_required (required_col : string)
    (* "Missing one or more required columns in the encoding info: `...`" *)
| ValueError_duplicate_ids (ids : list string)
    (* "Duplicate IDs: ..." *)
| ValueError_allele (allele : string)
    (* an allele symbol that the variant does not have *)
| ValueError_no_objects
    (* pd.concat of an empty list: "No objects to concatenate" *)
| TypeError_join
    (* str.join over a sequence holding a non-string *)
| KeyError (key : list string).

Inductive result (A : Type) : Type :=
| Ok (a : A)
| Raise (e : exn).
Arguments Ok {A} a.
Arguments Raise {A} e.

Definition bind {A B : Type} (m : result A) (k : A -> result B) : result B :=
  match m with
  | Ok a => k a
  | Raise e => Raise e
  end.

(** [for x in xs: body x], stopping at the first exception. *)
Fixpoint for_each {A : Type} (body : A -> result unit) (xs : list A)
  : result unit :=
  match xs with
  | [] => Ok tt
  | x :: xs' => bind (body x) (fun _ => for_each body xs')
  end.

(** [[f x for x in xs]], stopping at the first exception. *)
Fixpoint comprehension {A B : Type} (f : A -> result B) (xs : list A)
  : result (list B) :=
  match xs with
  | [] => Ok []
  | x :: xs' =>
      bind (f x) (fun y =>
      bind (comprehension f xs') (fun ys => Ok (y :: ys)))
  end.

Definition raises {A : Type} (m : result A) : Prop :=
  exists e, m = Raise e.

Definition is_ValueError (e : exn) : bool :=
  match e with
  | ValueError_missing_required _ | ValueError_duplicate_ids _
  | ValueError_allele _ | ValueError_no_objects => true
  | _ => false
  end.

Definition is_AttributeError (e : exn) : bool :=
  match e with
  | AttributeError_incompatible _ | AttributeError_no_attribute _ _ => true
  | _ => false
  end.

End Py.
Export Py.

Declare Scope py_scope.
Delimit Scope py_scope with py.
Notation "x <- m ;; k" := (bind m (fun x => k))
  (at level 61, m at next level, right associativity) : py_scope.
Notation "m ;;; k" := (bind m (fun _ => k))
  (at level 61, right associativity) : py_scope.
Open Scope py_scope.

(** A float: a finite number or NaN.  Comparisons with NaN are false, as
    in IEEE 754 and numpy. *)
Inductive pyfloat : Type :=
| NaN
| Fin (q : Q).

Definition isnan (x : pyfloat) : bool :=
  match x with NaN => true | Fin _ => false end.

(** [x >= y] on floats. *)
Definition float_ge (x y : pyfloat) : bool :=
  match x, y with
  | Fin a, Fin b => Qle_bool b a
  | _, _ => false
  end.

(* ================================================================== *)
(** * Classification and the encodings of one genotype column *)
(* ================================================================== *)

Module Encoding.

(** Modelled from the spec: the outcome of [classify] (section 4.1).  The
    array-level encoders live in [pandas_genomics.arrays], which the
    accessor only imports. *)
Inductive Classification : Type :=
| HOM_REF | HET | HOM_ALT | OTHER_HET | MISSING.

Definition is_unknown (s : option nat) : bool :=
  match s with None => true | Some _ => false end.

Definition slot_is (p : nat -> bool) (s : option nat) : bool :=
  match s with Some i => p i | None => false end.

Definition slot_eqb (s t : option nat) : bool :=
  match s, t with
  | Some i, Some j => Nat.eqb i j
  | None, None => true
  | _, _ => false
  end.

Definition all_same (g : Genotype) : bool :=
  match g with
  | [] => true
  | s :: rest => forallb (slot_eqb s) rest
  end.

(** Modelled from the spec: [classify] of section 4.1, rule by rule and
    in the order of the text, for a choice of which allele indices count
    as reference and which as alternate.
    - MISSING if all slots are unknown;
    - a partially observed call collapses to MISSING;
    - HOM_REF if every slot is the reference;
    - HOM_ALT if every slot is the same alternate allele, the
      "other het" bucket if the slots are different alternates;
    - HET if the slots are fully known and mix reference and alternate
      (for two slots: exactly one of each);
    - any other fully-known combination is the "other het" bucket. *)
Definition classify_with (is_ref is_alt : nat -> bool) (g : Genotype)
  : Classification :=
  if forallb is_unknown g then MISSING
  else if existsb is_unknown g then MISSING
  else if forallb (slot_is is_ref) g then HOM_REF
  else if forallb (slot_is is_alt) g then
    (if all_same g then HOM_ALT else OTHER_HET)
  else if forallb (slot_is (fun i => is_ref i || is_alt i)) g then HET
  else OTHER_HET.

(** Against the variant's own alleles: index 0 is the reference, every
    other index an alternate. *)
Definition classify (g : Genotype) : Classification :=
  classify_with (Nat.eqb 0) (fun i => negb (Nat.eqb 0 i)) g.

(** Against a chosen pair of allele indices (weighted encoding). *)
Definition classify_wrt (r a : nat) (g : Genotype) : Classification :=
  classify_with (Nat.eqb r) (Nat.eqb a) g.

(** Modelled from the spec: the table of section 4.3, one column per
    fixed encoding; [None] is the "no value" sentinel (NaN for the
    numeric encodings, no category for the categorical one). *)
Definition additive_value (c : Classification) : option Z :=
  match c with
  | HOM_REF => Some 0%Z
  | HET => Some 1%Z
  | HOM_ALT => Some 2%Z
  | OTHER_HET | MISSING => None
  end.

Definition dominant_value (c : Classification) : option Z :=
  match c with
  | HOM_REF => Some 0%Z
  | HET => Some 1%Z
  | HOM_ALT => Some 1%Z
  | OTHER_HET | MISSING => None
  end.

Definition recessive_value (c : Classification) : option Z :=
  match c with
  | HOM_REF => Some 0%Z
  | HET => Some 0%Z
  | HOM_ALT => Some 1%Z
  | OTHER_HET | MISSING => None
  end.

Definition codominant_value (c : Classification) : option string :=
  match c with
  | HOM_REF => Some "Ref"
  | HET => Some "Het"
  | HOM_ALT => Some "Hom"
  | OTHER_HET | MISSING => None
  end.

(** [pd.Categorical(values, categories=..., ordered=...)]: every value
    is stored as the position of its category, a value that is missing
    or not a category as no code. *)
Record Categorical : Type := mkCategorical {
  categories : list string;
  ordered : bool;
  codes : list (option nat)
}.

Definition Categorical_of (values : list (option string))
    (cats : list string) (ord : bool) : Categorical :=
  {| categories := cats;
     ordered := ord;
     codes := map (fun v => match v with
                            | Some s => index_of s cats
                            | None => None
                            end) values |}.

(** The values a categorical holds, read back through its codes. *)
Definition cat_values (c : Categorical) : list (option string) :=
  map (fun code => match code with
                   | Some i => nth_error (categories c) i
                   | None => None
                   end) (codes c).

(** [a < b] in an ordered categorical: by position in [categories]. *)
Definition cat_lt (c : Categorical) (a b : string) : Prop :=
  ordered c = true /\
  exists i j, index_of a (categories c) = Some i /\
              index_of b (categories c) = Some j /\ (i < j)%nat.

Definition encode_additive (arr : GenotypeArray) : list (option Z) :=
  map (fun g => additive_value (classify g)) (allele_idxs arr).

Definition encode_dominant (arr : GenotypeArray) : list (option Z) :=
  map (fun g => dominant_value (classify g)) (allele_idxs arr).

Definition encode_recessive (arr : GenotypeArray) : list (option Z) :=
  map (fun g => recessive_value (classify g)) (allele_idxs arr).

Definition encode_codominant (arr : GenotypeArray) : Categorical :=
  Categorical_of
    (map (fun g => codominant_value (classify g)) (allele_idxs arr))
    ["Ref"; "Het"; "Hom"] true.

(** Modelled from the spec: the weighted value of a classified call
    (section 4.4): 0 for HOM_REF, alpha for HET, 1 for HOM_ALT, no value
    otherwise. *)
Definition weighted_value (alpha : Q) (c : Classification) : option Q :=
  match c with
  | HOM_REF => Some 0%Q
  | HET => Some alpha
  | HOM_ALT => Some 1%Q
  | OTHER_HET | MISSING => None
  end.

(** Modelled from the spec: the single-variant weighted encoding of
    section 4.4, called in the tests as
    [encode_weighted(alpha_value, ref_allele, alt_allele, minor_allele_freq)].
    Both symbols must be alleles of the variant, otherwise a ValueError;
    calls are classified against the chosen pair; the allele frequency
    is carried along and not used. *)
Definition encode_weighted (arr : GenotypeArray) (alpha_value : Q)
    (ref_allele alt_allele : string) (minor_allele_freq : Q)
  : result (list (option Q)) :=
  match index_of ref_allele (alleles (variant arr)) with
  | None => Raise (ValueError_allele ref_allele)
  | Some r =>
      match index_of alt_allele (alleles (variant arr)) with
      | None => Raise (ValueError_allele alt_allele)
      | Some a =>
          Ok (map (fun g => weighted_value alpha_value (classify_wrt r a g))
                  (allele_idxs arr))
      end
  end.

(** Modelled from the spec: the minor allele frequency of section 4.2,
    the alternate alleles among the slots of the fully-known calls over
    the number of those slots; NaN when there is no such slot. *)
Definition maf (arr : GenotypeArray) : pyfloat :=
  let slots :=
    List.concat
      (filter (fun g => negb (existsb is_unknown g)) (allele_idxs arr)) in
  let alternate :=
    filter (slot_is (fun i => negb (Nat.eqb 0 i))) slots in
  match List.length slots with
  | O => NaN
  | S n => Fin (Z.of_nat (List.length alternate) # Pos.of_succ_nat n)
  end.

(** The image of an additive value under 0 -> Ref, 1 -> Het, 2 -> Hom. *)
Definition category_of_additive (x : option Z) : option string :=
  match x with
  | Some 0%Z => Some "Ref"
  | Some 1%Z => Some "Het"
  | Some 2%Z => Some "Hom"
  | _ => None
  end.

(** How the weighted value changes when reference and alternate swap. *)
Definition mirrored (alpha : Q) (c : Classification) (x y : option Q)
  : Prop :=
  match c with
  | HOM_REF => x = Some 0%Q /\ y = Some 1%Q
  | HOM_ALT => x = Some 1%Q /\ y = Some 0%Q
  | HET => x = Some alpha /\ y = Some alpha
  | MISSING => x = None /\ y = None
  | OTHER_HET => x = None /\ y = None
  end.

(** Exchanging the roles of the two alleles exchanges HOM_REF and
    HOM_ALT and leaves the other classes in place. *)
Definition swap_class (c : Classification) : Classification :=
  match c with
  | HOM_REF => HOM_ALT
  | HOM_ALT => HOM_REF
  | other => other
  end.

(** [1 - x] on a value that may be absent. *)
Definition one_minus (x : option Q) : option Q :=
  option_map (fun q => Qminus 1%Q q) x.

(** A categorical column is the image of an additive column under
    0 -> Ref, 1 -> Het, 2 -> Hom: value by value, with "no value" at the
    same positions, over the ordered categories Ref < Het < Hom. *)
Definition image_of_additive (cat : Categorical) (ints : list (option Z))
  : Prop :=
  cat_values cat = map category_of_additive ints /\
  (forall i : nat,
      nth_error (cat_values cat) i = Some None <->
      nth_error ints i = Some None) /\
  categories cat = ["Ref"; "Het"; "Hom"] /\
  ordered cat = true /\
  cat_lt cat "Ref" "Het" /\ cat_lt cat "Het" "Hom".


End Encoding.

(* ================================================================== *)
(** * Frames, parameter tables and the DataFrame accessor *)
(* ================================================================== *)

(** The data of one column, by kind of dtype. *)
Inductive values : Type :=
| GenotypeValues (arr : GenotypeArray)
| FloatValues (dtype_name : string) (xs : list pyfloat)
| IntValues (xs : list (option Z))
| CategoricalValues (c : Encoding.Categorical).

Definition dtype_of (s : values) : dtype :=
  match s with
  | GenotypeValues arr => GenotypeDtype (variant arr)
  | FloatValues dtype_name _ => OtherDtype dtype_name
  | IntValues _ => OtherDtype "UInt8"
  | CategoricalValues _ => OtherDtype "category"
  end.

(** A frame: its columns, label and data, in column order.  Labels are
    taken to be unique, as in every frame of the tests. *)
Definition DataFrame : Type := list (string * values).

(** [pd.DataFrame(data)] for a dict from column label to genotype array,
    as the fixture [encoding_df] builds its frame. *)
Definition genotype_frame (data : list (string * GenotypeArray)) : DataFrame :=
  map (fun item => (fst item, GenotypeValues (snd item))) data.

(** [df.dtypes]: a series from column label to dtype. *)
Definition dtypes (df : DataFrame) : list (string * dtype) :=
  map (fun col => (fst col, dtype_of (snd col))) df.

(** [df.loc[:, mask]] for a boolean series [mask] over the columns. *)
Definition loc_columns (df : DataFrame) (mask : list (string * bool))
  : DataFrame :=
  map fst (filter snd (combine df (map snd mask))).

(** [pd.concat(objs, axis=1)] of named series; pandas refuses an empty
    list of objects. *)
Definition concat_axis1 (objs : list (string * values)) : result DataFrame :=
  match objs with
  | [] => Raise ValueError_no_objects
  | _ :: _ => Ok objs
  end.

(** A cell of the parameter table [encoding_info]. *)
Inductive cell : Type :=
| CStr (s : string)
| CFloat (x : pyfloat)
| CNone.

(** The parameter table, column by column; all columns have the length
    of the table. *)
Definition Table : Type := list (string * list cell).

Definition isna (c : cell) : bool :=
  match c with
  | CNone | CFloat NaN => true
  | _ => false
  end.

Definition cell_eqb (c d : cell) : bool :=
  match c, d with
  | CStr s, CStr t => String.eqb s t
  | CFloat (Fin p), CFloat (Fin q) => Qeq_bool p q
  | CFloat NaN, CFloat NaN => true
  | CNone, CNone => true
  | _, _ => false
  end.

Fixpoint count_cell (c : cell) (xs : list cell) : nat :=
  match xs with
  | [] => 0
  | x :: xs' => (if cell_eqb c x then 1 else 0) + count_cell c xs'
  end.

(** The distinct cells of a column, in order of first appearance. *)
Fixpoint distinct (xs : list cell) : list cell :=
  match xs with
  | [] => []
  | x :: xs' => x :: filter (fun y => negb (cell_eqb x y)) (distinct xs')
  end.

(** [series.value_counts()]: every distinct value that is not missing,
    with the number of rows holding it.  (pandas sorts the entries by
    count; the order of the entries is not used below but for the text of
    an error message.) *)
Definition value_counts (xs : list cell) : list (cell * nat) :=
  let present := filter (fun c => negb (isna c)) xs in
  map (fun c => (c, count_cell c present)) (distinct present).

(** [', '.join([v for v in index])]: every element must be a string. *)
Fixpoint join_items (xs : list cell) : result (list string) :=
  match xs with
  | [] => Ok []
  | CStr s :: xs' => rest <- join_items xs' ;; Ok (s :: rest)
  | _ :: _ => Raise TypeError_join
  end.

(** [table[label]]. *)
Fixpoint getitem (t : Table) (label : string) : result (list cell) :=
  match t with
  | [] => Raise (KeyError [label])
  | (l, col) :: t' => if String.eqb l label then Ok col else getitem t' label
  end.

Definition record : Type := list (string * cell).

(** [table.set_index(label)]: the column becomes the index and leaves
    the columns. *)
Definition set_index (t : Table) (label : string)
  : result (list cell * Table) :=
  index <- getitem t label ;;
  Ok (index, filter (fun col => negb (String.eqb (fst col) label)) t).

(** [frame.to_dict(orient="rows")]: pandas 1.x reads every orient that
    starts with "r" as "records", a list with one dict per row, from
    column label to cell; the index is not part of it. *)
Definition to_dict_rows (frame : list cell * Table) : list record :=
  map (fun i => map (fun col => (fst col, nth i (snd col) CNone)) (snd frame))
      (seq 0 (List.length (fst frame))).

(** What the name [encoding_info] is bound to in [encode_weighted]: the
    frame that was passed in, or the list of dicts it is rebound to. *)
Inductive pyobj : Type :=
| PyDataFrame (frame : list cell * Table)
| PyList (items : list record).

(** [obj.iterrows()]: a method of frames; a list has no such attribute. *)
Definition iterrows (obj : pyobj) : result (list (cell * record)) :=
  match obj with
  | PyDataFrame frame => Ok (combine (fst frame) (to_dict_rows frame))
  | PyList _ => Raise (AttributeError_no_attribute "list" "iterrows")
  end.

Module Accessor.

(** [GenotypeDataframeAccessor]: the object behind [df.genomics]. *)
Record GenotypeDataframeAccessor : Type := mkAccessor {
  _obj : DataFrame
}.

(** [__init__]: every column must have a genotype dtype; otherwise an
    AttributeError that lists the columns which do not. *)
Definition __init__ (pandas_obj : DataFrame)
  : result GenotypeDataframeAccessor :=
  if negb (forallb (fun dt => is_dtype (snd dt)) (dtypes pandas_obj)) then
    let incorrect :=
      filter (fun dt => negb (is_dtype (snd dt))) (dtypes pandas_obj) in
    Raise (AttributeError_incompatible incorrect)
  else Ok {| _obj := pandas_obj |}.

(** [df.genomics.method(...)]: the accessor is built first, then the
    method runs on it. *)
Definition genomics {A : Type} (df : DataFrame)
    (method : GenotypeDataframeAccessor -> result A) : result A :=
  self <- __init__ df ;; method self.

(** Modelled from the spec: the Series accessor [s.genomics] is not in
    the accessor module; like the DataFrame accessor it is only defined
    on a genotype column and gives access to its array. *)
Definition series_genomics (col : string * values) : result GenotypeArray :=
  match snd col with
  | GenotypeValues arr => Ok arr
  | _ => Raise (AttributeError_incompatible [(fst col, dtype_of (snd col))])
  end.

(** [[s.genomics.f() for _, s in self._obj.iteritems()]] *)
Definition per_column (f : GenotypeArray -> values)
    (self : GenotypeDataframeAccessor) : result (list (string * values)) :=
  comprehension
    (fun col => arr <- series_genomics col ;; Ok (fst col, f arr))
    (_obj self).

Definition encode_additive (self : GenotypeDataframeAccessor)
  : result DataFrame :=
  objs <- per_column (fun arr => IntValues (Encoding.encode_additive arr))
                     self ;;
  concat_axis1 objs.

Definition encode_dominant (self : GenotypeDataframeAccessor)
  : result DataFrame :=
  objs <- per_column (fun arr => IntValues (Encoding.encode_dominant arr))
                     self ;;
  concat_axis1 objs.

Definition encode_recessive (self : GenotypeDataframeAccessor)
  : result DataFrame :=
  objs <- per_column (fun arr => IntValues (Encoding.encode_recessive arr))
                     self ;;
  concat_axis1 objs.

Definition encode_codominant (self : GenotypeDataframeAccessor)
  : result DataFrame :=
  objs <- per_column
            (fun arr => CategoricalValues (Encoding.encode_codominant arr))
            self ;;
  concat_axis1 objs.

Definition REQUIRED : list string :=
  ["Variant ID"; "Alpha Value"; "Ref Allele"; "Alt Allele";
   "Minor Allele Frequency"].

(** [required_col not in list(encoding_info)] *)
Definition missing_in (labels : list string) (required_col : string) : bool :=
  negb (existsb (String.eqb required_col) labels).

(** The first loop of [encode_weighted]: the first required column that
    is not a column label raises. *)
Definition validate_required (encoding_info : Table) : result unit :=
  for_each
    (fun required_col =>
       if missing_in (map fst encoding_info) required_col
       then Raise (ValueError_missing_required required_col)
       else Ok tt)
    REQUIRED.

(** The duplicate check of [encode_weighted]. *)
Definition validate_unique (encoding_info : Table) : result unit :=
  ids <- getitem encoding_info "Variant ID" ;;
  let id_counts := value_counts ids in
  if existsb (fun e => Nat.ltb 1 (snd e)) id_counts then
    names <- join_items
               (map fst (filter (fun e => Nat.ltb 1 (snd e)) id_counts)) ;;
    Raise (ValueError_duplicate_ids names)
  else Ok tt.

(** [encode_weighted], statement by statement.  After the validation
    the name [encoding_info] is rebound to the list of dicts and the loop
    asks that list for [iterrows].  The body of the loop indexes a row
    with a tuple of three labels, which a row indexed by single labels
    answers with a KeyError.  The [return] statement concatenates the
    codominant encoding of every column. *)
Definition encode_weighted (self : GenotypeDataframeAccessor)
    (encoding_info : Table) : result DataFrame :=
  validate_required encoding_info ;;;
  validate_unique encoding_info ;;;
  frame <- set_index encoding_info "Variant ID" ;;
  let encoding_info := PyList (to_dict_rows frame) in
  rows <- iterrows encoding_info ;;
  for_each
    (fun row : cell * record =>
       Raise (A := unit) (KeyError ["Variant ID"; "Ref Allele"; "Alt Allele"]))
    rows ;;;
  objs <- per_column
            (fun arr => CategoricalValues (Encoding.encode_codominant arr))
            self ;;
  concat_axis1 objs.

Section Statistics.

(** The two per-column statistics, [col.genomics.maf] and
    [col.genomics.hwe_pval], are computed by the genotype array; the
    accessor only maps them over the columns. *)
Variable array_maf : GenotypeArray -> pyfloat.
Variable array_hwe_pval : GenotypeArray -> pyfloat.

(** [self._obj.apply(lambda col: col.genomics.maf)]: a series from column
    label to the statistic of the column.  (What pandas makes of [apply]
    on a frame without columns is not modelled; the properties below are
    stated for frames with at least one column.) *)
Definition maf (self : GenotypeDataframeAccessor)
  : result (list (string * pyfloat)) :=
  comprehension
    (fun col => arr <- series_genomics col ;; Ok (fst col, array_maf arr))
    (_obj self).

Definition hwe_pval (self : GenotypeDataframeAccessor)
  : result (list (string * pyfloat)) :=
  comprehension
    (fun col =>
       arr <- series_genomics col ;; Ok (fst col, array_hwe_pval arr))
    (_obj self).

(** The default values of [keep_min_freq] and [cutoff]. *)
Definition default_keep_min_freq : pyfloat := Fin (1 # 100)%Q.
Definition default_cutoff : pyfloat := Fin (5 # 100)%Q.

(** [self._obj.loc[:, self._obj.genomics.maf >= keep_min_freq]] *)
Definition filter_variants_maf (self : GenotypeDataframeAccessor)
    (keep_min_freq : pyfloat) : result DataFrame :=
  freqs <- genomics (_obj self) maf ;;
  Ok (loc_columns (_obj self)
        (map (fun e => (fst e, float_ge (snd e) keep_min_freq)) freqs)).

(** [self._obj.loc[:, (hwe_pval >= cutoff) | np.isnan(hwe_pval)]], the
    property being read once for each side of the disjunction. *)
Definition filter_variants_hwe (self : GenotypeDataframeAccessor)
    (cutoff : pyfloat) : result DataFrame :=
  pvals <- genomics (_obj self) hwe_pval ;;
  pvals' <- genomics (_obj self) hwe_pval ;;
  Ok (loc_columns (_obj self)
        (map (fun e => (fst (fst e),
                        float_ge (snd (fst e)) cutoff || isnan (snd (snd e))))
             (combine pvals pvals'))).

End Statistics.

Section VariantInfo.

(** What [series.genomics.variant_info] returns for one column is built
    by the genotype array; the accessor collects it column by column. *)
Variable Info : Type.
Variable series_variant_info : GenotypeArray -> Info.

(** [d[key] = value] on a dict, which keeps its keys in the order of
    their first insertion. *)
Fixpoint dict_set (d : list (string * Info)) (key : string) (value : Info)
  : list (string * Info) :=
  match d with
  | [] => [(key, value)]
  | (k, v) :: d' =>
      if String.eqb k key then (k, value) :: d'
      else (k, v) :: dict_set d' key value
  end.

(** [d.get(key)] *)
Fixpoint dict_get (d : list (string * Info)) (key : string) : option Info :=
  match d with
  | [] => None
  | (k, v) :: d' => if String.eqb k key then Some v else dict_get d' key
  end.

(** [variant_info]: the dict comprehension over the columns, handed to
    [pd.DataFrame.from_dict(..., orient="index")], one row per key. *)
Definition variant_info (self : GenotypeDataframeAccessor)
  : result (list (string * Info)) :=
  items <- comprehension
             (fun col =>
                arr <- series_genomics col ;;
                Ok (fst col, series_variant_info arr))
             (_obj self) ;;
  Ok (fold_left (fun d item => dict_set d (fst item) (snd item)) items []).

End VariantInfo.

Arguments dict_set {Info} d key value.
Arguments dict_get {Info} d key.
Arguments variant_info {Info} series_variant_info self.

End Accessor.

(* ================================================================== *)
(** * The fixtures of the encoding tests *)
(* ================================================================== *)

Module Fixtures.

(** One variant of [encoding_df]: [Variant(chromosome="chr1",
    position=idx + 1, id=f"rs{idx+1}", ref=base, alt=[base.lower()])]. *)
Definition encoding_variant (idx : nat) (rsid base lower : string)
  : Variant :=
  {| chromosome := "chr1"; position := idx + 1; id := rsid;
     ref := base; alt := [lower]; ploidy := 2 |}.

(** Its five calls: homozygous reference, heterozygous, homozygous
    alternate, one allele missing, both alleles missing. *)
Definition encoding_column (idx : nat) (rsid base lower : string)
  : GenotypeArray :=
  let var := encoding_variant idx rsid base lower in
  {| variant := var;
     allele_idxs :=
       [ make_genotype var [base; base];
         make_genotype var [base; lower];
         make_genotype var [lower; lower];
         make_genotype var [base];
         make_genotype var [] ] |}.

Definition encoding_data : list (string * GenotypeArray) :=
  [ ("var0", encoding_column 0 "rs1" "A" "a");
    ("var1", encoding_column 1 "rs2" "B" "b");
    ("var2", encoding_column 2 "rs3" "C" "c");
    ("var3", encoding_column 3 "rs4" "D" "d");
    ("var4", encoding_column 4 "rs5" "E" "e") ].

Definition encoding_df : DataFrame := genotype_frame encoding_data.

(** [df["num"] = pd.Series(np.ones(len(df))).astype("Float64")] *)
Definition encoding_df_with_num : DataFrame :=
  (encoding_df ++
   [ ("num", FloatValues "Float64"
               [Fin 1%Q; Fin 1%Q; Fin 1%Q; Fin 1%Q; Fin 1%Q]) ])%list.

Definition floats (qs : list Q) : list cell :=
  map (fun q => CFloat (Fin q)) qs.

(** The first parameter table of [test_encoding_weighted_df]. *)
Definition encoding_info_standard : Table :=
  [ ("Variant ID", map CStr ["rs1"; "rs2"; "rs3"; "rs4"; "rs5"]);
    ("Alpha Value",
      floats [(1#10)%Q; (2#10)%Q; (3#10)%Q; (4#10)%Q; (5#10)%Q]);
    ("Ref Allele", map CStr ["A"; "B"; "C"; "D"; "E"]);
    ("Alt Allele", map CStr ["a"; "b"; "c"; "d"; "e"]);
    ("Minor Allele Frequency",
      floats [(1#10)%Q; (1#10)%Q; (1#10)%Q; (1#10)%Q; (1#10)%Q]) ].

(** The second one: rs3 absent, rs4 with a wrong allele, rs5 swapped. *)
Definition encoding_info_partial : Table :=
  [ ("Variant ID", map CStr ["rs1"; "rs2"; "rs4"; "rs5"]);
    ("Alpha Value", floats [(1#10)%Q; (2#10)%Q; (4#10)%Q; (5#10)%Q]);
    ("Ref Allele", map CStr ["A"; "B"; "D"; "e"]);
    ("Alt Allele", map CStr ["a"; "b"; "X"; "E"]);
    ("Minor Allele Frequency",
      floats [(1#10)%Q; (1#10)%Q; (1#10)%Q; (1#10)%Q]) ].

(** A table whose identifier rs1 is carried by two rows. *)
Definition encoding_info_duplicated : Table :=
  [ ("Variant ID", map CStr ["rs1"; "rs2"; "rs1"]);
    ("Alpha Value", floats [(1#10)%Q; (2#10)%Q; (3#10)%Q]);
    ("Ref Allele", map CStr ["A"; "B"; "A"]);
    ("Alt Allele", map CStr ["a"; "b"; "a"]);
    ("Minor Allele Frequency", floats [(1#10)%Q; (1#10)%Q; (1#10)%Q]) ].

(** A table without its "Alpha Value" column, columns in another order. *)
Definition encoding_info_no_alpha : Table :=
  [ ("Alt Allele", map CStr ["a"; "b"]);
    ("Minor Allele Frequency", floats [(1#10)%Q; (1#10)%Q]);
    ("Variant ID", map CStr ["rs1"; "rs2"]);
    ("Ref Allele", map CStr ["A"; "B"]) ].

(** A table in which two rows have no identifier at all. *)
Definition encoding_info_missing_ids : Table :=
  [ ("Variant ID", [CStr "rs1"; CNone; CStr "rs2"; CNone]);
    ("Alpha Value", floats [(1#10)%Q; (2#10)%Q; (3#10)%Q; (4#10)%Q]);
    ("Ref Allele", map CStr ["A"; "B"; "B"; "C"]);
    ("Alt Allele", map CStr ["a"; "b"; "b"; "c"]);
    ("Minor Allele Frequency",
      floats [(1#10)%Q; (1#10)%Q; (1#10)%Q; (1#10)%Q]) ].

(** A table whose identifiers are numbers, one of them repeated. *)
Definition encoding_info_numeric_ids : Table :=
  [ ("Variant ID", floats [7%Q; 8%Q; 7%Q]);
    ("Alpha Value", floats [(1#10)%Q; (2#10)%Q; (3#10)%Q]);
    ("Ref Allele", map CStr ["A"; "B"; "A"]);
    ("Alt Allele", map CStr ["a"; "b"; "a"]);
    ("Minor Allele Frequency", floats [(1#10)%Q; (1#10)%Q; (1#10)%Q]) ].

End Fixtures.

(* ================================================================== *)
(** * Properties *)
(* ================================================================== *)

Import Encoding Accessor Fixtures.

(** ** Symbols and their positions *)

Lemma index_of_None (s : string) (xs : list string) :
  index_of s xs = None <-> ~ In s xs.
Proof.
  induction xs as [| x xs IH]; simpl.
  - split; [intros _ [] | reflexivity].
  - destruct (String.eqb_spec s x) as [-> | Hne].
    + split; [discriminate | intros H; exfalso; apply H; left; reflexivity].
    + destruct (index_of s xs) eqn:E; simpl.
      * split; [discriminate |].
        intros H; exfalso; apply H; right.
        destruct (in_dec string_dec s xs) as [Hin | Hnin]; [exact Hin |].
        apply IH in Hnin; discriminate.
      * split; [| reflexivity].
        intros _ [Heq | Hin]; [congruence | apply IH in Hin; auto].
Qed.

Lemma index_of_Some (s : string) (xs : list string) (i : nat) :
  index_of s xs = Some i -> nth_error xs i = Some s.
Proof.
  revert i; induction xs as [| x xs IH]; simpl; intros i H.
  - discriminate.
  - destruct (String.eqb_spec s x) as [-> | Hne].
    + injection H as <-; reflexivity.
    + destruct (index_of s xs) as [j |] eqn:E; simpl in H; [| discriminate].
      injection H as <-; simpl; apply IH; reflexivity.
Qed.

Lemma index_of_In (s : string) (xs : list string) :
  In s xs -> exists i, index_of s xs = Some i.
Proof.
  intros Hin; destruct (index_of s xs) as [i |] eqn:E.
  - exists i; reflexivity.
  - apply index_of_None in E; contradiction.
Qed.

Lemma index_of_distinct (s t : string) (xs : list string) (i j : nat) :
  s <> t -> index_of s xs = Some i -> index_of t xs = Some j -> i <> j.
Proof.
  intros Hne Hs Ht ->.
  apply index_of_Some in Hs; apply index_of_Some in Ht; congruence.
Qed.

(** ** Classification of one call *)

Lemma unknown_slot_exists (g : Genotype) :
  In None g -> existsb is_unknown g = true.
Proof.
  intros Hin; apply existsb_exists; exists None; split; [exact Hin | reflexivity].
Qed.

Lemma classify_with_unknown (is_ref is_alt : nat -> bool) (g : Genotype) :
  In None g -> classify_with is_ref is_alt g = MISSING.
Proof.
  intros Hin; unfold classify_with.
  rewrite (unknown_slot_exists g Hin).
  destruct (forallb is_unknown g); reflexivity.
Qed.

Lemma classify_with_MISSING (is_ref is_alt : nat -> bool) (g : Genotype) :
  classify_with is_ref is_alt g = MISSING -> g = [] \/ In None g.
Proof.
  unfold classify_with.
  destruct (forallb is_unknown g) eqn:Eall.
  - intros _; destruct g as [| s g']; [left; reflexivity | right].
    simpl in Eall; apply andb_prop in Eall as [Hs _].
    destruct s; [discriminate | left; reflexivity].
  - destruct (existsb is_unknown g) eqn:Eex.
    + intros _; right.
      apply existsb_exists in Eex as [s [Hin Hs]].
      destruct s; [discriminate | exact Hin].
    + repeat match goal with
             | |- context [if ?b then _ else _] => destruct b
             end; discriminate.
Qed.

(** For two known slots the classification reads as in section 4.1. *)
Lemma classify_diploid (a b : nat) :
  classify [Some a; Some b] =
  match a, b with
  | O, O => HOM_REF
  | O, S _ | S _, O => HET
  | S i, S j => if Nat.eqb i j then HOM_ALT else OTHER_HET
  end.
Proof.
  destruct a as [| i], b as [| j]; try reflexivity.
  unfold classify, classify_with; simpl.
  rewrite andb_true_r; reflexivity.
Qed.

(** The passing cases of [test_encoding_weighted] on the first three
    calls of a column with alleles A and a. *)
Example weighted_test_cases :
  Encoding.encode_weighted (encoding_column 0 "rs1" "A" "a")
    (1 # 4)%Q "A" "a" (45 # 100)%Q =
    Ok [Some 0%Q; Some (1 # 4)%Q; Some 1%Q; None; None] /\
  Encoding.encode_weighted (encoding_column 0 "rs1" "A" "a")
    (1 # 4)%Q "a" "A" (45 # 100)%Q =
    Ok [Some 1%Q; Some (1 # 4)%Q; Some 0%Q; None; None] /\
  Encoding.encode_weighted (encoding_column 0 "rs1" "A" "a")
    1%Q "a" "A" (45 # 100)%Q =
    Ok [Some 1%Q; Some 1%Q; Some 0%Q; None; None].
Proof. repeat split. Qed.

Lemma all_slots_same (i : nat) (g : Genotype) :
  forallb (slot_is (Nat.eqb i)) g = true -> all_same g = true.
Proof.
  destruct g as [| s g']; simpl; [reflexivity |].
  intros H; apply andb_prop in H as [Hs Hrest].
  destruct s as [j |]; simpl in Hs; [| discriminate].
  apply Nat.eqb_eq in Hs; subst j.
  apply forallb_forall; intros t Ht.
  rewrite forallb_forall in Hrest; specialize (Hrest t Ht).
  destruct t as [k |]; simpl in *; [exact Hrest | discriminate].
Qed.

Lemma all_slots_two_indices (r a : nat) (g : Genotype) :
  g <> [] ->
  forallb (slot_is (Nat.eqb r)) g = true ->
  forallb (slot_is (Nat.eqb a)) g = true -> r = a.
Proof.
  destruct g as [| s g']; [congruence |]; simpl; intros _ Hr Ha.
  apply andb_prop in Hr as [Hr _]; apply andb_prop in Ha as [Ha _].
  destruct s as [j |]; simpl in *; [| discriminate].
  apply Nat.eqb_eq in Hr, Ha; congruence.
Qed.

Lemma mixed_slots_sym (r a : nat) (g : Genotype) :
  forallb (slot_is (fun i => Nat.eqb a i || Nat.eqb r i)) g =
  forallb (slot_is (fun i => Nat.eqb r i || Nat.eqb a i)) g.
Proof.
  induction g as [| s g IH]; simpl; [reflexivity |].
  rewrite IH; destruct s; simpl; [rewrite orb_comm |]; reflexivity.
Qed.

Lemma classify_wrt_swap (r a : nat) (g : Genotype) :
  r <> a -> classify_wrt a r g = swap_class (classify_wrt r a g).
Proof.
  intros Hne; unfold classify_wrt, classify_with.
  destruct (forallb is_unknown g) eqn:Eall; [reflexivity |].
  destruct (existsb is_unknown g) eqn:Eex; [reflexivity |].
  assert (Hg : g <> []) by (intros ->; discriminate).
  rewrite (mixed_slots_sym r a g).
  destruct (forallb (slot_is (Nat.eqb r)) g) eqn:Er;
    destruct (forallb (slot_is (Nat.eqb a)) g) eqn:Ea.
  - exfalso; apply Hne; exact (all_slots_two_indices r a g Hg Er Ea).
  - rewrite (all_slots_same r g Er); reflexivity.
  - rewrite (all_slots_same a g Ea); reflexivity.
  - match goal with
    | |- context [if ?b then HET else _] => destruct b
    end; reflexivity.
Qed.

Lemma weighted_value_mirrored (alpha : Q) (c : Classification) :
  mirrored alpha c (weighted_value alpha c)
                   (weighted_value alpha (swap_class c)).
Proof. destruct c; simpl; split; reflexivity. Qed.

Lemma category_of_additive_value (c : Classification) :
  category_of_additive (additive_value c) = codominant_value c.
Proof. destruct c; reflexivity. Qed.

Lemma additive_None_iff_codominant_None (c : Classification) :
  additive_value c = None <-> codominant_value c = None.
Proof. destruct c; simpl; split; congruence. Qed.

(** Every category label is read back from its code. *)
Lemma codominant_code_roundtrip (c : Classification) :
  match match codominant_value c with
        | Some s => index_of s ["Ref"; "Het"; "Hom"]
        | None => None
        end
  with
  | Some i => nth_error ["Ref"; "Het"; "Hom"] i
  | None => None
  end = codominant_value c.
Proof. destruct c; reflexivity. Qed.

Lemma cat_values_encode_codominant (arr : GenotypeArray) :
  cat_values (Encoding.encode_codominant arr) =
  map (fun g => codominant_value (classify g)) (allele_idxs arr).
Proof.
  unfold cat_values, Encoding.encode_codominant, Categorical_of; simpl.
  rewrite !map_map; apply map_ext; intros g.
  apply codominant_code_roundtrip.
Qed.

(** ** The fixed encodings *)



(** ** Codominant against additive *)

Lemma cat_lt_Ref_Het_Hom (cat : Categorical) :
  categories cat = ["Ref"; "Het"; "Hom"] -> ordered cat = true ->
  cat_lt cat "Ref" "Het" /\ cat_lt cat "Het" "Hom".
Proof.
  intros Hc Ho; unfold cat_lt; rewrite Hc, Ho; split; (split; [reflexivity |]).
  - exists 0, 1; repeat split; auto.
  - exists 1, 2; repeat split; auto.
Qed.

Lemma encode_codominant_image (arr : GenotypeArray) :
  image_of_additive (Encoding.encode_codominant arr)
                    (Encoding.encode_additive arr).
Proof.
  unfold image_of_additive.
  rewrite cat_values_encode_codominant.
  unfold Encoding.encode_additive.
  split; [| split; [| split; [reflexivity | split; [reflexivity |]]]].
  - rewrite map_map; apply map_ext; intros g.
    symmetry; apply category_of_additive_value.
  - intros i; rewrite !nth_error_map.
    destruct (nth_error (allele_idxs arr) i) as [g |]; simpl;
      [| split; discriminate].
    pose proof (additive_None_iff_codominant_None (classify g)) as [H1 H2].
    split; intros H; injection H as H; f_equal; auto.
  - apply cat_lt_Ref_Het_Hom; reflexivity.
Qed.

(** Two per-column encodings of one frame fail alike or give columns with
    the same labels, encoded from the same arrays. *)
Lemma per_column_pair (f f' : GenotypeArray -> values)
    (self : GenotypeDataframeAccessor) :
  match per_column f self, per_column f' self with
  | Ok xs, Ok ys =>
      Forall2 (fun x y => exists arr,
                   x = (fst x, f arr) /\ y = (fst x, f' arr)) xs ys
  | Raise e, Raise e' => e = e'
  | _, _ => False
  end.
Proof.
  unfold per_column; induction (_obj self) as [| col cols IH]; simpl.
  - constructor.
  - unfold series_genomics; destruct (snd col); simpl; try reflexivity.
    destruct (comprehension _ cols), (comprehension _ cols); simpl;
      try exact IH.
    constructor; [| exact IH].
    exists arr; split; reflexivity.
Qed.

(** C7.  For every genotype column, [encode_codominant] is the image of
    [encode_additive] under 0 -> Ref, 1 -> Het, 2 -> Hom, both have no
    value at exactly the same positions, and the categories are ordered
    Ref < Het < Hom.  The same holds column by column for the two methods
    of the DataFrame accessor, which fail alike when they fail. *)
Theorem codominant_is_image_of_additive :
  (forall arr : GenotypeArray,
      image_of_additive (Encoding.encode_codominant arr)
                        (Encoding.encode_additive arr)) /\
  (forall self : GenotypeDataframeAccessor,
      match Accessor.encode_additive self, Accessor.encode_codominant self with
      | Ok additive, Ok codominant =>
          Forall2 (fun x y =>
                     fst x = fst y /\
                     exists ints cat,
                       snd x = IntValues ints /\
                       snd y = CategoricalValues cat /\
                       image_of_additive cat ints)
                  additive codominant
      | Raise e, Raise e' => e = e'
      | _, _ => False
      end).
Proof.
  split; [exact encode_codominant_image |].
  intros self; unfold Accessor.encode_additive, Accessor.encode_codominant.
  pose proof (per_column_pair
                (fun arr => IntValues (Encoding.encode_additive arr))
                (fun arr => CategoricalValues (Encoding.encode_codominant arr))
                self) as H.
  destruct (per_column _ self) as [xs | e], (per_column _ self) as [ys | e'];
    simpl; try exact H; try contradiction.
  destruct H as [| x y xs ys Hxy Hrest]; simpl; [reflexivity |].
  constructor.
  - destruct Hxy as [arr [Hx Hy]]; rewrite Hx, Hy; simpl; split; [reflexivity |].
    exists (Encoding.encode_additive arr), (Encoding.encode_codominant arr).
    split; [reflexivity | split; [reflexivity | apply encode_codominant_image]].
  - induction Hrest as [| x' y' xs' ys' [arr [Hx Hy]] _ IH]; constructor;
      [| exact IH].
    rewrite Hx, Hy; simpl; split; [reflexivity |].
    exists (Encoding.encode_additive arr), (Encoding.encode_codominant arr).
    split; [reflexivity | split; [reflexivity | apply encode_codominant_image]].
Qed.

(** ** The weighted encoding of one column *)

Lemma encode_weighted_Ok (arr : GenotypeArray) (alpha : Q)
    (ref_allele alt_allele : string) (maf : Q) (r a : nat) :
  index_of ref_allele (alleles (variant arr)) = Some r ->
  index_of alt_allele (alleles (variant arr)) = Some a ->
  Encoding.encode_weighted arr alpha ref_allele alt_allele maf =
  Ok (map (fun g => weighted_value alpha (classify_wrt r a g))
          (allele_idxs arr)).
Proof.
  intros Hr Ha; unfold Encoding.encode_weighted; rewrite Hr, Ha; reflexivity.
Qed.

(** The class of a call read off its slots, for two different allele
    indices [r] (reference) and [a] (alternate). *)
Lemma forallb_false_In {A : Type} (p : A -> bool) (xs : list A) (x : A) :
  In x xs -> p x = false -> forallb p xs = false.
Proof.
  intros Hin Hx; destruct (forallb p xs) eqn:E; [| reflexivity].
  rewrite forallb_forall in E; rewrite (E x Hin) in Hx; discriminate.
Qed.

Lemma existsb_false_all {A : Type} (p : A -> bool) (xs : list A) :
  (forall x, In x xs -> p x = false) -> existsb p xs = false.
Proof.
  intros H; destruct (existsb p xs) eqn:E; [| reflexivity].
  apply existsb_exists in E as [x [Hin Hx]]; rewrite (H x Hin) in Hx.
  discriminate.
Qed.

Lemma classify_wrt_all_ref (r a : nat) (g : Genotype) :
  g <> [] -> Forall (eq (Some r)) g -> classify_wrt r a g = HOM_REF.
Proof.
  intros Hg Hall; rewrite Forall_forall in Hall.
  unfold classify_wrt, classify_with.
  destruct g as [| s g']; [congruence |].
  assert (Hs : s = Some r) by (symmetry; apply Hall; left; reflexivity).
  rewrite (forallb_false_In is_unknown (s :: g') s)
    by (subst s; simpl; auto).
  rewrite existsb_false_all
    by (intros x Hx; rewrite <- (Hall x Hx); reflexivity).
  assert (Href : forallb (slot_is (Nat.eqb r)) (s :: g') = true).
  { apply forallb_forall; intros x Hx; rewrite <- (Hall x Hx); simpl.
    apply Nat.eqb_refl. }
  rewrite Href; reflexivity.
Qed.

Lemma classify_wrt_all_alt (r a : nat) (g : Genotype) :
  r <> a -> g <> [] -> Forall (eq (Some a)) g -> classify_wrt r a g = HOM_ALT.
Proof.
  intros Hne Hg Hall.
  rewrite (classify_wrt_swap a r g) by congruence.
  rewrite (classify_wrt_all_ref a r g Hg Hall); reflexivity.
Qed.

Lemma classify_wrt_mixed (r a : nat) (g : Genotype) :
  r <> a -> In (Some r) g -> In (Some a) g ->
  Forall (fun s => s = Some r \/ s = Some a) g ->
  classify_wrt r a g = HET.
Proof.
  intros Hne Hr Ha Hall; rewrite Forall_forall in Hall.
  unfold classify_wrt, classify_with.
  rewrite (forallb_false_In is_unknown g (Some r) Hr eq_refl).
  rewrite existsb_false_all
    by (intros x Hx; destruct (Hall x Hx) as [-> | ->]; reflexivity).
  rewrite (forallb_false_In (slot_is (Nat.eqb r)) g (Some a) Ha)
    by (simpl; apply Nat.eqb_neq; exact Hne).
  rewrite (forallb_false_In (slot_is (Nat.eqb a)) g (Some r) Hr)
    by (simpl; apply Nat.eqb_neq; congruence).
  assert (Hmix : forallb (slot_is (fun i => Nat.eqb r i || Nat.eqb a i)) g
                 = true).
  { apply forallb_forall; intros x Hx.
    destruct (Hall x Hx) as [-> | ->]; simpl; rewrite Nat.eqb_refl;
      [reflexivity | apply orb_true_r]. }
  rewrite Hmix; reflexivity.
Qed.

Lemma classify_wrt_foreign (r a z : nat) (g : Genotype) :
  ~ In None g -> In (Some z) g -> z <> r -> z <> a ->
  classify_wrt r a g = OTHER_HET.
Proof.
  intros Hknown Hz Hzr Hza.
  unfold classify_wrt, classify_with.
  rewrite (forallb_false_In is_unknown g (Some z) Hz eq_refl).
  rewrite existsb_false_all
    by (intros x Hx; destruct x; [reflexivity | contradiction]).
  rewrite (forallb_false_In (slot_is (Nat.eqb r)) g (Some z) Hz)
    by (simpl; apply Nat.eqb_neq; congruence).
  rewrite (forallb_false_In (slot_is (Nat.eqb a)) g (Some z) Hz)
    by (simpl; apply Nat.eqb_neq; congruence).
  rewrite (forallb_false_In
             (slot_is (fun i => Nat.eqb r i || Nat.eqb a i)) g (Some z) Hz);
    [reflexivity |].
  simpl; apply orb_false_iff; split; apply Nat.eqb_neq; congruence.
Qed.

(** C4.  With the reference and the alternate symbol exchanged, the
    weighted encoding of a column gives, position by position: at a call
    whose slots are all the reference allele 0 before and 1 after, at a
    call whose slots are all the alternate allele 1 before and 0 after,
    that is 1 minus the value before; at a call that mixes the two
    alleles alpha before and after; at a call with an unknown slot, or
    with a third allele, no value before and after. *)
Theorem weighted_swap_mirrors :
  forall (arr : GenotypeArray) (alpha : Q) (ref_allele alt_allele : string)
         (maf : Q),
    ref_allele <> alt_allele ->
    In ref_allele (alleles (variant arr)) ->
    In alt_allele (alleles (variant arr)) ->
    exists (r a : nat) (plain swapped : list (option Q)),
      index_of ref_allele (alleles (variant arr)) = Some r /\
      index_of alt_allele (alleles (variant arr)) = Some a /\
      Encoding.encode_weighted arr alpha ref_allele alt_allele maf = Ok plain /\
      Encoding.encode_weighted arr alpha alt_allele ref_allele maf = Ok swapped /\
      List.length plain = List.length (allele_idxs arr) /\
      List.length swapped = List.length (allele_idxs arr) /\
      forall (i : nat) (g : Genotype),
        nth_error (allele_idxs arr) i = Some g ->
        exists x y : option Q,
          nth_error plain i = Some x /\
          nth_error swapped i = Some y /\
          mirrored alpha (classify_wrt r a g) x y /\
          (classify_wrt r a g = HOM_REF \/ classify_wrt r a g = HOM_ALT ->
           y = one_minus x) /\
          (g <> [] -> Forall (eq (Some r)) g ->
           x = Some 0%Q /\ y = Some 1%Q /\ y = one_minus x) /\
          (g <> [] -> Forall (eq (Some a)) g ->
           x = Some 1%Q /\ y = Some 0%Q /\ y = one_minus x) /\
          (In (Some r) g -> In (Some a) g ->
           Forall (fun s => s = Some r \/ s = Some a) g ->
           x = Some alpha /\ y = Some alpha) /\
          (In None g -> x = None /\ y = None) /\
          (forall z, ~ In None g -> In (Some z) g -> z <> r -> z <> a ->
                     x = None /\ y = None).
Proof.
  intros arr alpha ref_allele alt_allele maf Hne Hin_ref Hin_alt.
  destruct (index_of_In _ _ Hin_ref) as [r Hr].
  destruct (index_of_In _ _ Hin_alt) as [a Ha].
  assert (Hra : r <> a) by exact (index_of_distinct _ _ _ _ _ Hne Hr Ha).
  exists r, a; eexists; eexists.
  split; [exact Hr | split; [exact Ha |]].
  split; [apply (encode_weighted_Ok _ _ _ _ _ r a Hr Ha) |].
  split; [apply (encode_weighted_Ok _ _ _ _ _ a r Ha Hr) |].
  split; [apply length_map | split; [apply length_map |]].
  intros i g Hg.
  exists (weighted_value alpha (classify_wrt r a g)),
         (weighted_value alpha (classify_wrt a r g)).
  rewrite !nth_error_map, Hg; simpl.
  split; [reflexivity | split; [reflexivity |]].
  rewrite (classify_wrt_swap r a g Hra).
  split; [apply weighted_value_mirrored |].
  split; [intros [-> | ->]; reflexivity |].
  split; [| split; [| split; [| split]]].
  - intros Hg' Hall; rewrite (classify_wrt_all_ref r a g Hg' Hall).
    repeat split.
  - intros Hg' Hall; rewrite (classify_wrt_all_alt r a g Hra Hg' Hall).
    repeat split.
  - intros H1 H2 Hall; rewrite (classify_wrt_mixed r a g Hra H1 H2 Hall).
    split; reflexivity.
  - intros Hnone; unfold classify_wrt.
    rewrite (classify_with_unknown _ _ g Hnone); split; reflexivity.
  - intros z Hknown Hz Hzr Hza.
    rewrite (classify_wrt_foreign r a z g Hknown Hz Hzr Hza).
    split; reflexivity.
Qed.

(** The test column of [test_encoding_weighted_df], alleles A and a,
    with alpha = 0.25: [0, 0.25, 1, NA, NA] before the exchange and
    [1, 0.25, 0, NA, NA] after it. *)
Lemma weighted_swap_mirrors_witness :
  exists plain swapped : list (option Q),
    Encoding.encode_weighted (encoding_column 0 "rs1" "A" "a")
      (1 # 4)%Q "A" "a" (45 # 100)%Q = Ok plain /\
    Encoding.encode_weighted (encoding_column 0 "rs1" "A" "a")
      (1 # 4)%Q "a" "A" (45 # 100)%Q = Ok swapped /\
    plain = [Some 0%Q; Some (1 # 4)%Q; Some 1%Q; None; None] /\
    swapped = [Some 1%Q; Some (1 # 4)%Q; Some 0%Q; None; None].
Proof.
  assert (Hne : "A" <> "a") by discriminate.
  assert (Hin_ref : In "A" (alleles (variant (encoding_column 0 "rs1" "A" "a"))))
    by (left; reflexivity).
  assert (Hin_alt : In "a" (alleles (variant (encoding_column 0 "rs1" "A" "a"))))
    by (right; left; reflexivity).
  destruct (weighted_swap_mirrors (encoding_column 0 "rs1" "A" "a")
              (1 # 4)%Q "A" "a" (45 # 100)%Q Hne Hin_ref Hin_alt)
    as [r [a [plain [swapped [_ [_ [Hp [Hs _]]]]]]]].
  exists plain, swapped.
  split; [exact Hp | split; [exact Hs |]].
  split.
  - assert (H : Ok [Some 0%Q; Some (1 # 4)%Q; Some 1%Q; None; None] = Ok plain)
      by exact Hp.
    injection H as <-; reflexivity.
  - assert (H : Ok [Some 1%Q; Some (1 # 4)%Q; Some 0%Q; None; None] = Ok swapped)
      by exact Hs.
    injection H as <-; reflexivity.
Defined.

(** C6.  When the reference and the alternate symbol passed to the
    weighted encoding of one column are not both alleles of its variant,
    the encoding raises a ValueError and returns no values. *)
Theorem weighted_unknown_allele_raises :
  forall (arr : GenotypeArray) (alpha : Q) (ref_allele alt_allele : string)
         (maf : Q),
    ~ (In ref_allele (alleles (variant arr)) /\
       In alt_allele (alleles (variant arr))) ->
    exists e : exn,
      Encoding.encode_weighted arr alpha ref_allele alt_allele maf = Raise e /\
      is_ValueError e = true /\
      (forall values : list (option Q),
          Encoding.encode_weighted arr alpha ref_allele alt_allele maf
          <> Ok values).
Proof.
  intros arr alpha ref_allele alt_allele maf Hnot.
  unfold Encoding.encode_weighted.
  destruct (index_of ref_allele (alleles (variant arr))) as [r |] eqn:Er.
  - destruct (index_of alt_allele (alleles (variant arr))) as [a |] eqn:Ea.
    + exfalso; apply Hnot; split.
      * apply index_of_Some in Er; exact (nth_error_In _ _ Er).
      * apply index_of_Some in Ea; exact (nth_error_In _ _ Ea).
    + exists (ValueError_allele alt_allele).
      split; [reflexivity | split; [reflexivity | discriminate]].
  - exists (ValueError_allele ref_allele).
    split; [reflexivity | split; [reflexivity | discriminate]].
Qed.

(** The failing case of [test_encoding_weighted]: alternate allele G on
    a variant whose alleles are A and a. *)
Lemma weighted_unknown_allele_raises_witness :
  exists e : exn,
    Encoding.encode_weighted (encoding_column 0 "rs1" "A" "a")
      (1 # 4)%Q "A" "G" (45 # 100)%Q = Raise e /\
    is_ValueError e = true.
Proof.
  assert (Hnot : ~ (In "A" (alleles (variant (encoding_column 0 "rs1" "A" "a")))
                    /\ In "G" (alleles (variant (encoding_column 0 "rs1" "A" "a"))))).
  { intros [_ [H | [H | []]]]; discriminate H. }
  destruct (weighted_unknown_allele_raises (encoding_column 0 "rs1" "A" "a")
              (1 # 4)%Q "A" "G" (45 # 100)%Q Hnot) as [e [He [Hv _]]].
  exists e; split; [exact He | exact Hv].
Defined.

(** ** Building the accessor *)

Lemma init_Ok (df : DataFrame) :
  forallb (fun dt => is_dtype (snd dt)) (dtypes df) = true ->
  __init__ df = Ok {| _obj := df |}.
Proof. intros H; unfold __init__; rewrite H; reflexivity. Qed.

Lemma init_Raise (df : DataFrame) :
  forallb (fun dt => is_dtype (snd dt)) (dtypes df) = false ->
  __init__ df =
  Raise (AttributeError_incompatible
           (filter (fun dt => negb (is_dtype (snd dt))) (dtypes df))).
Proof. intros H; unfold __init__; rewrite H; reflexivity. Qed.

Lemma init_genotype_frame (data : list (string * GenotypeArray)) :
  __init__ (genotype_frame data) = Ok {| _obj := genotype_frame data |}.
Proof.
  apply init_Ok; apply forallb_forall; intros dt Hin.
  unfold dtypes, genotype_frame in Hin; rewrite map_map in Hin.
  apply in_map_iff in Hin as [item [<- _]]; reflexivity.
Qed.

(** C10.  When a frame has a column whose dtype is not a genotype dtype,
    building the accessor raises the AttributeError that lists exactly
    the columns with another dtype, and so does every method reached
    through [df.genomics]. *)
Theorem accessor_rejects_other_dtypes :
  forall (df : DataFrame) (name : string) (col : values),
    In (name, col) df ->
    is_dtype (dtype_of col) = false ->
    let incorrect :=
      filter (fun dt => negb (is_dtype (snd dt))) (dtypes df) in
    __init__ df = Raise (AttributeError_incompatible incorrect) /\
    is_AttributeError (AttributeError_incompatible incorrect) = true /\
    In (name, dtype_of col) incorrect /\
    (forall (n : string) (dt : dtype),
        In (n, dt) incorrect <-> In (n, dt) (dtypes df) /\ is_dtype dt = false) /\
    (forall (A : Type) (method : GenotypeDataframeAccessor -> result A),
        genomics df method = Raise (AttributeError_incompatible incorrect)).
Proof.
  intros df name col Hin Hdt incorrect.
  assert (Hin' : In (name, dtype_of col) (dtypes df)).
  { unfold dtypes; apply in_map_iff; exists (name, col); split; auto. }
  assert (Hall : forallb (fun dt => is_dtype (snd dt)) (dtypes df) = false).
  { destruct (forallb _ (dtypes df)) eqn:E; [| reflexivity].
    rewrite forallb_forall in E; specialize (E _ Hin'); simpl in E; congruence. }
  assert (Hfilter : forall n dt,
             In (n, dt) incorrect <-> In (n, dt) (dtypes df) /\ is_dtype dt = false).
  { intros n dt; unfold incorrect; rewrite filter_In; simpl.
    rewrite negb_true_iff; reflexivity. }
  split; [exact (init_Raise df Hall) |].
  split; [reflexivity |].
  split; [apply Hfilter; split; assumption |].
  split; [exact Hfilter |].
  intros A method; unfold genomics; rewrite (init_Raise df Hall); reflexivity.
Qed.

(** The frame of [test_encoding_weighted_df], with its Float64 column
    "num". *)
Lemma accessor_rejects_other_dtypes_witness :
  __init__ encoding_df_with_num =
  Raise (AttributeError_incompatible [("num", OtherDtype "Float64")]).
Proof.
  assert (Hin : In ("num",
                    FloatValues "Float64"
                      [Fin 1%Q; Fin 1%Q; Fin 1%Q; Fin 1%Q; Fin 1%Q])
                   encoding_df_with_num).
  { unfold encoding_df_with_num; apply in_or_app; right; left; reflexivity. }
  exact (proj1 (accessor_rejects_other_dtypes encoding_df_with_num "num" _
                  Hin eq_refl)).
Defined.

(** ** Validation of the parameter table *)

Lemma find_pointwise {A : Type} (p q : A -> bool) (xs : list A) :
  (forall x, p x = q x) -> find p xs = find q xs.
Proof.
  intros H; induction xs as [| x xs IH]; simpl; [reflexivity |].
  rewrite H, IH; reflexivity.
Qed.

Lemma validate_required_find (encoding_info : Table) :
  validate_required encoding_info =
  match find (missing_in (map fst encoding_info)) REQUIRED with
  | Some c => Raise (ValueError_missing_required c)
  | None => Ok tt
  end.
Proof.
  unfold validate_required; induction REQUIRED as [| c cs IH]; simpl.
  - reflexivity.
  - destruct (missing_in (map fst encoding_info) c); simpl.
    + reflexivity.
    + exact IH.
Qed.

Lemma missing_in_spec (labels : list string) (c : string) :
  missing_in labels c = true <-> ~ In c labels.
Proof.
  unfold missing_in; rewrite negb_true_iff.
  split.
  - intros H Hin.
    assert (existsb (String.eqb c) labels = true); [| congruence].
    apply existsb_exists; exists c; split; [exact Hin | apply String.eqb_refl].
  - intros Hnin; destruct (existsb _ labels) eqn:E; [| reflexivity].
    apply existsb_exists in E as [x [Hin Heq]].
    apply String.eqb_eq in Heq; subst x; contradiction.
Qed.

Lemma missing_in_Permutation (l l' : list string) (c : string) :
  Permutation l l' -> missing_in l c = missing_in l' c.
Proof.
  intros HP.
  destruct (missing_in l c) eqn:E, (missing_in l' c) eqn:E'; try reflexivity.
  - apply missing_in_spec in E.
    assert (~ In c l') by (intros H; apply E; eapply Permutation_in;
                           [apply Permutation_sym; exact HP | exact H]).
    apply missing_in_spec in H; congruence.
  - apply missing_in_spec in E'.
    assert (~ In c l) by (intros H; apply E'; eapply Permutation_in;
                          [exact HP | exact H]).
    apply missing_in_spec in H; congruence.
Qed.

Lemma encode_weighted_missing (self : GenotypeDataframeAccessor)
    (encoding_info : Table) (c : string) :
  find (missing_in (map fst encoding_info)) REQUIRED = Some c ->
  Accessor.encode_weighted self encoding_info =
  Raise (ValueError_missing_required c).
Proof.
  intros H; unfold Accessor.encode_weighted.
  rewrite validate_required_find, H; reflexivity.
Qed.

(** C5.  A parameter table that lacks one of the five required columns
    makes the batch weighted encoding raise the ValueError for a required
    column that is missing; the columns of the frame play no part and the
    same error is raised however the columns of the table are ordered. *)
Theorem encode_weighted_requires_columns :
  forall (self : GenotypeDataframeAccessor) (encoding_info : Table),
    (exists c, In c REQUIRED /\ ~ In c (map fst encoding_info)) ->
    exists c : string,
      In c REQUIRED /\ ~ In c (map fst encoding_info) /\
      Accessor.encode_weighted self encoding_info =
        Raise (ValueError_missing_required c) /\
      is_ValueError (ValueError_missing_required c) = true /\
      (forall (self' : GenotypeDataframeAccessor) (reordered : Table),
          Permutation reordered encoding_info ->
          Accessor.encode_weighted self' reordered =
            Raise (ValueError_missing_required c)).
Proof.
  intros self encoding_info [c0 [Hreq Hnin]].
  destruct (find (missing_in (map fst encoding_info)) REQUIRED) as [c |] eqn:E.
  - pose proof (find_some _ _ E) as [Hc Hmiss].
    apply missing_in_spec in Hmiss.
    exists c; split; [exact Hc | split; [exact Hmiss |]].
    split; [exact (encode_weighted_missing self encoding_info c E) |].
    split; [reflexivity |].
    intros self' reordered HP; apply encode_weighted_missing.
    rewrite <- E; apply find_pointwise; intros x.
    apply missing_in_Permutation, Permutation_map, HP.
  - exfalso.
    pose proof (find_none _ _ E c0 Hreq) as H.
    apply missing_in_spec in Hnin; congruence.
Qed.

(** A table without "Alpha Value", its columns in another order. *)
Lemma encode_weighted_requires_columns_witness :
  exists c : string,
    Accessor.encode_weighted {| _obj := encoding_df |} encoding_info_no_alpha =
    Raise (ValueError_missing_required c).
Proof.
  assert (H : exists c, In c REQUIRED /\
                        ~ In c (map fst encoding_info_no_alpha)).
  { exists "Alpha Value"; split; [right; left; reflexivity |].
    simpl; intros [H | [H | [H | [H | []]]]]; discriminate H. }
  destruct (encode_weighted_requires_columns {| _obj := encoding_df |}
              encoding_info_no_alpha H) as [c [_ [_ [Hc _]]]].
  exists c; exact Hc.
Defined.

(** ** Duplicate identifiers *)

Lemma cell_eqb_CStr (s : string) (c : cell) :
  cell_eqb c (CStr s) = true <-> c = CStr s.
Proof.
  destruct c as [t | [| q] |]; simpl; split; try discriminate.
  - intros H; apply String.eqb_eq in H; congruence.
  - intros H; injection H as ->; apply String.eqb_refl.
Qed.

Lemma present_strings (names : list string) :
  filter (fun c => negb (isna c)) (map CStr names) = map CStr names.
Proof.
  induction names as [| s names IH]; simpl; [reflexivity | rewrite IH; reflexivity].
Qed.

Lemma count_cell_strings (s : string) (names : list string) :
  count_cell (CStr s) (map CStr names) = count_occ string_dec names s.
Proof.
  induction names as [| t names IH]; simpl; [reflexivity |].
  rewrite IH; destruct (string_dec t s) as [-> | Hne].
  - rewrite String.eqb_refl; reflexivity.
  - destruct (String.eqb_spec s t); [congruence | reflexivity].
Qed.

Lemma distinct_incl (c : cell) (xs : list cell) :
  In c (distinct xs) -> In c xs.
Proof.
  induction xs as [| x xs IH]; simpl; [auto |].
  intros [-> | Hin]; [left; reflexivity | right].
  apply filter_In in Hin as [Hin _]; auto.
Qed.

Lemma distinct_string (s : string) (xs : list cell) :
  In (CStr s) xs -> In (CStr s) (distinct xs).
Proof.
  induction xs as [| x xs IH]; simpl; [auto |].
  intros [-> | Hin]; [left; reflexivity |].
  destruct (cell_eqb x (CStr s)) eqn:E.
  - left; apply cell_eqb_CStr; exact E.
  - right; apply filter_In; split; [auto | rewrite E; reflexivity].
Qed.

Lemma repeated_name (names : list string) :
  ~ NoDup names -> exists s, 2 <= count_occ string_dec names s.
Proof.
  induction names as [| t names IH]; intros Hdup.
  - exfalso; apply Hdup; constructor.
  - destruct (in_dec string_dec t names) as [Hin | Hnin].
    + exists t; simpl; destruct (string_dec t t); [| congruence].
      apply (count_occ_In string_dec) in Hin; lia.
    + destruct IH as [s Hs].
      * intros Hnd; apply Hdup; constructor; assumption.
      * exists s; simpl; destruct (string_dec t s); lia.
Qed.

(** The identifiers that [id_counts[id_counts > 1].index] holds. *)
Lemma repeated_ids_spec (names : list string) (s : string) :
  In (CStr s)
     (map fst (filter (fun e => Nat.ltb 1 (snd e))
                      (value_counts (map CStr names)))) <->
  2 <= count_occ string_dec names s.
Proof.
  unfold value_counts; rewrite present_strings.
  rewrite in_map_iff; split.
  - intros [[c n] [Hc Hin]]; simpl in Hc; subst c.
    apply filter_In in Hin as [Hin Hn]; simpl in Hn.
    apply in_map_iff in Hin as [c [Heq _]].
    injection Heq as -> <-.
    rewrite count_cell_strings in Hn; apply Nat.ltb_lt in Hn; exact Hn.
  - intros Hcount.
    exists (CStr s, count_cell (CStr s) (map CStr names)); split; [reflexivity |].
    apply filter_In; split.
    + apply in_map_iff; exists (CStr s); split; [reflexivity |].
      apply distinct_string, in_map, (count_occ_In string_dec); lia.
    + simpl; rewrite count_cell_strings; apply Nat.ltb_lt; exact Hcount.
Qed.

Lemma repeated_ids_are_strings (names : list string) :
  Forall (fun c => exists s, c = CStr s)
         (map fst (filter (fun e => Nat.ltb 1 (snd e))
                          (value_counts (map CStr names)))).
Proof.
  apply Forall_forall; intros c Hin.
  apply in_map_iff in Hin as [[c' n] [Hc Hin]]; simpl in Hc; subst c'.
  apply filter_In in Hin as [Hin _].
  unfold value_counts in Hin; rewrite present_strings in Hin.
  apply in_map_iff in Hin as [c' [Heq Hd]]; injection Heq as -> _.
  apply distinct_incl, in_map_iff in Hd as [s [<- _]].
  exists s; reflexivity.
Qed.

Lemma join_items_strings (xs : list cell) :
  Forall (fun c => exists s, c = CStr s) xs ->
  exists ids, join_items xs = Ok ids /\ xs = map CStr ids.
Proof.
  induction 1 as [| c xs [s ->] _ [ids [Hj Hx]]]; simpl.
  - exists []; split; reflexivity.
  - exists (s :: ids); rewrite Hj, Hx; split; reflexivity.
Qed.

Lemma validate_unique_duplicates (encoding_info : Table)
    (names : list string) :
  getitem encoding_info "Variant ID" = Ok (map CStr names) ->
  ~ NoDup names ->
  exists ids,
    validate_unique encoding_info = Raise (ValueError_duplicate_ids ids) /\
    ids <> [] /\
    (forall s, In s ids <-> 2 <= count_occ string_dec names s).
Proof.
  intros Hget Hdup; unfold validate_unique; rewrite Hget; simpl.
  destruct (join_items_strings _ (repeated_ids_are_strings names))
    as [ids [Hjoin Hids]].
  assert (Hspec : forall s, In s ids <-> 2 <= count_occ string_dec names s).
  { intros s; rewrite <- repeated_ids_spec, Hids; split.
    - apply in_map.
    - intros H; apply in_map_iff in H as [t [Heq Ht]]; congruence. }
  destruct (repeated_name names Hdup) as [s Hs].
  assert (Hex : existsb (fun e => Nat.ltb 1 (snd e))
                        (value_counts (map CStr names)) = true).
  { apply existsb_exists.
    apply repeated_ids_spec, in_map_iff in Hs as [e [_ He]].
    apply filter_In in He as [He Hn]; exists e; split; assumption. }
  rewrite Hex, Hjoin; simpl.
  exists ids; split; [reflexivity | split; [| exact Hspec]].
  intros ->; apply Hspec in Hs; exact Hs.
Qed.

(** C3.  When two or more rows of the parameter table carry the same
    Variant ID, the batch weighted encoding raises a ValueError, the same
    one whatever the genotype columns are: it is raised by the validation
    of the table, which comes before any column of the frame is looked
    at.  With all five required columns present it is the duplicate-id
    error, naming the identifiers that occur more than once. *)
Theorem encode_weighted_rejects_duplicate_ids :
  forall (encoding_info : Table) (names : list string),
    getitem encoding_info "Variant ID" = Ok (map CStr names) ->
    ~ NoDup names ->
    exists e : exn,
      is_ValueError e = true /\
      (forall self : GenotypeDataframeAccessor,
          Accessor.encode_weighted self encoding_info = Raise e) /\
      (validate_required encoding_info = Ok tt ->
       exists ids : list string,
         e = ValueError_duplicate_ids ids /\ ids <> [] /\
         forall s, In s ids <-> 2 <= count_occ string_dec names s).
Proof.
  intros encoding_info names Hget Hdup.
  destruct (validate_unique_duplicates encoding_info names Hget Hdup)
    as [ids [Huniq [Hne Hspec]]].
  unfold Accessor.encode_weighted.
  destruct (validate_required encoding_info) as [[] | e] eqn:Ereq; simpl.
  - rewrite Huniq; simpl.
    exists (ValueError_duplicate_ids ids).
    split; [reflexivity | split; [reflexivity |]].
    intros _; exists ids; split; [reflexivity | split; assumption].
  - exists e; split; [| split; [reflexivity | discriminate]].
    rewrite validate_required_find in Ereq.
    destruct (find _ REQUIRED); [| discriminate].
    injection Ereq as <-; reflexivity.
Qed.

(** A table in which rs1 is the identifier of two rows. *)
Lemma encode_weighted_rejects_duplicate_ids_witness :
  exists e : exn,
    is_ValueError e = true /\
    Accessor.encode_weighted {| _obj := encoding_df |}
      encoding_info_duplicated = Raise e.
Proof.
  assert (Hdup : ~ NoDup ["rs1"; "rs2"; "rs1"]).
  { intros H; inversion H as [| x l Hnin _]; subst.
    apply Hnin; right; left; reflexivity. }
  destruct (encode_weighted_rejects_duplicate_ids encoding_info_duplicated
              ["rs1"; "rs2"; "rs1"] eq_refl Hdup) as [e [Hv [He _]]].
  exists e; split; [exact Hv | apply He].
Defined.

(** ** The batch weighted encoding on the frames of its test *)

Lemma encode_weighted_raises (self : GenotypeDataframeAccessor)
    (encoding_info : Table) :
  raises (Accessor.encode_weighted self encoding_info).
Proof.
  unfold raises, Accessor.encode_weighted.
  destruct (validate_required encoding_info) as [[] | e1]; simpl;
    [| exists e1; reflexivity].
  destruct (validate_unique encoding_info) as [[] | e2]; simpl;
    [| exists e2; reflexivity].
  destruct (set_index encoding_info "Variant ID") as [frame | e3]; simpl;
    [| exists e3; reflexivity].
  eexists; reflexivity.
Qed.

(** C1.  What [encode_weighted] of the DataFrame accessor does on the
    input of [test_encoding_weighted_df].  With the Float64 column "num"
    in the frame the accessor is refused (AttributeError); on the
    genotype columns alone the table passes the validation and the method
    stops at [encoding_info.iterrows()], the name being bound to a list
    by then; and the method returns a frame for no input at all.  The
    frame that the test expects, one numeric column per matched variant
    next to the other columns, is never produced. *)
Theorem encode_weighted_on_test_frame :
  genomics encoding_df_with_num
    (fun self => Accessor.encode_weighted self encoding_info_standard) =
    Raise (AttributeError_incompatible [("num", OtherDtype "Float64")]) /\
  genomics encoding_df
    (fun self => Accessor.encode_weighted self encoding_info_standard) =
    Raise (AttributeError_no_attribute "list" "iterrows") /\
  genomics encoding_df
    (fun self => Accessor.encode_weighted self encoding_info_partial) =
    Raise (AttributeError_no_attribute "list" "iterrows") /\
  (forall (self : GenotypeDataframeAccessor) (encoding_info : Table)
          (frame : DataFrame),
      Accessor.encode_weighted self encoding_info <> Ok frame).
Proof.
  split; [vm_compute; reflexivity |].
  split; [vm_compute; reflexivity |].
  split; [vm_compute; reflexivity |].
  intros self encoding_info frame H.
  destruct (encode_weighted_raises self encoding_info) as [e He].
  congruence.
Qed.

(** ** The two filters *)

Lemma per_column_statistic (stat : GenotypeArray -> pyfloat)
    (data : list (string * GenotypeArray)) :
  comprehension
    (fun col => arr <- series_genomics col ;; Ok (fst col, stat arr))
    (genotype_frame data) =
  Ok (map (fun item => (fst item, stat (snd item))) data).
Proof.
  induction data as [| item data IH]; [reflexivity |].
  change (genotype_frame (item :: data))
    with ((fst item, GenotypeValues (snd item)) :: genotype_frame data).
  cbn [comprehension]; rewrite IH; reflexivity.
Qed.

Lemma loc_columns_genotype_frame (data : list (string * GenotypeArray))
    (keep : string * GenotypeArray -> bool) (mask : list (string * bool)) :
  map snd mask = map keep data ->
  loc_columns (genotype_frame data) mask = genotype_frame (filter keep data).
Proof.
  unfold loc_columns; intros ->; clear mask.
  induction data as [| item data IH]; simpl; [reflexivity |].
  destruct (keep item); simpl; rewrite IH; reflexivity.
Qed.

Lemma float_ge_Fin (x : pyfloat) (c : Q) :
  float_ge x (Fin c) = true <-> exists q, x = Fin q /\ (c <= q)%Q.
Proof.
  destruct x as [| q]; simpl.
  - split; [discriminate | intros [q [H _]]; discriminate].
  - rewrite Qle_bool_iff; split.
    + intros H; exists q; split; [reflexivity | exact H].
    + intros [q' [Heq H]]; injection Heq as ->; exact H.
Qed.

Lemma keep_hwe_false (x : pyfloat) (c : Q) :
  float_ge x (Fin c) || isnan x = false <-> exists p, x = Fin p /\ (p < c)%Q.
Proof.
  destruct x as [| p]; simpl.
  - split; [discriminate | intros [p [H _]]; discriminate].
  - rewrite orb_false_r; split.
    + intros H; exists p; split; [reflexivity |].
      apply Qnot_le_lt; intros Hle; apply Qle_bool_iff in Hle; congruence.
    + intros [p' [Heq Hlt]]; injection Heq as <-.
      destruct (Qle_bool c p) eqn:E; [| reflexivity].
      apply Qle_bool_iff in E; exfalso; exact (Qlt_not_le _ _ Hlt E).
Qed.

(** C9.  On a frame of one or more genotype columns, with a finite cutoff,
    [filter_variants_hwe] keeps every column whose HWE p-value is NaN and
    drops exactly the columns whose p-value is a number strictly below the
    cutoff, whereas [filter_variants_maf] drops every column whose MAF is
    NaN and keeps exactly the columns whose MAF is a number at least the
    threshold.  The per-column statistics are whatever the genotype array
    computes. *)
Theorem filters_treat_NaN_asymmetrically :
  forall (array_maf array_hwe_pval : GenotypeArray -> pyfloat)
         (data : list (string * GenotypeArray)) (cutoff keep_min_freq : Q),
    data <> [] ->
    let self := {| _obj := genotype_frame data |} in
    let kept_hwe :=
      filter (fun item => float_ge (array_hwe_pval (snd item)) (Fin cutoff)
                          || isnan (array_hwe_pval (snd item))) data in
    let kept_maf :=
      filter (fun item => float_ge (array_maf (snd item)) (Fin keep_min_freq))
             data in
    __init__ (genotype_frame data) = Ok self /\
    filter_variants_hwe array_hwe_pval self (Fin cutoff) =
      Ok (genotype_frame kept_hwe) /\
    filter_variants_maf array_maf self (Fin keep_min_freq) =
      Ok (genotype_frame kept_maf) /\
    (forall col : string * GenotypeArray,
        In col data ->
        (array_hwe_pval (snd col) = NaN -> In col kept_hwe) /\
        (~ In col kept_hwe <->
         exists p, array_hwe_pval (snd col) = Fin p /\ (p < cutoff)%Q) /\
        (array_maf (snd col) = NaN -> ~ In col kept_maf) /\
        (In col kept_maf <->
         exists q, array_maf (snd col) = Fin q /\ (keep_min_freq <= q)%Q)).
Proof.
  intros array_maf array_hwe_pval data cutoff keep_min_freq _
         self kept_hwe kept_maf.
  split; [apply init_genotype_frame |].
  split; [| split].
  - unfold filter_variants_hwe, genomics; simpl _obj.
    rewrite init_genotype_frame; simpl.
    unfold hwe_pval; simpl _obj; rewrite per_column_statistic; simpl.
    f_equal; apply loc_columns_genotype_frame.
    rewrite map_map; simpl.
    induction data as [| item data' IH]; simpl; [reflexivity |].
    f_equal; apply IH.
  - unfold filter_variants_maf, genomics; simpl _obj.
    rewrite init_genotype_frame; simpl.
    unfold maf; simpl _obj; rewrite per_column_statistic; simpl.
    f_equal; apply loc_columns_genotype_frame.
    rewrite !map_map; reflexivity.
  - intros col Hin; unfold kept_hwe, kept_maf; rewrite !filter_In.
    split; [| split; [| split]].
    + intros HNaN; split; [exact Hin | rewrite HNaN; reflexivity].
    + rewrite <- keep_hwe_false; split.
      * intros Hnot.
        destruct (float_ge _ _ || isnan _) eqn:E; [| reflexivity].
        exfalso; apply Hnot; split; [exact Hin | reflexivity].
      * intros E [_ H]; congruence.
    + intros HNaN [_ H]; rewrite HNaN in H; discriminate.
    + rewrite <- float_ge_Fin; split; [intros [_ H]; exact H |].
      intros H; split; assumption.
Qed.

(** The frame [encoding_df]: with an undefined p-value for every column
    the HWE filter keeps all five, and so does the MAF filter, every
    column having the allele frequency 1/2. *)
Lemma filters_treat_NaN_asymmetrically_witness :
  filter_variants_hwe (fun _ => NaN) {| _obj := encoding_df |}
    (Fin (5 # 100)%Q) = Ok encoding_df /\
  filter_variants_maf Encoding.maf {| _obj := encoding_df |}
    (Fin (1 # 100)%Q) = Ok encoding_df.
Proof.
  assert (Hne : encoding_data <> []) by discriminate.
  destruct (filters_treat_NaN_asymmetrically Encoding.maf (fun _ => NaN)
              encoding_data (5 # 100)%Q (1 # 100)%Q Hne)
    as [_ [Hhwe [Hmaf _]]].
  split; [exact Hhwe | exact Hmaf].
Defined.

(* ================================================================== *)
(** * Further properties of the accessor *)
(* ================================================================== *)

(** ** Every outcome of the batch weighted encoding *)

Lemma find_first {A : Type} (p : A -> bool) (xs : list A) (c : A) :
  find p xs = Some c <->
  exists pre post,
    xs = (pre ++ c :: post)%list /\
    (forall x, In x pre -> p x = false) /\ p c = true.
Proof.
  induction xs as [| x xs IH]; simpl.
  - split; [discriminate |].
    intros [[| y pre] [post [H _]]]; discriminate H.
  - destruct (p x) eqn:Ex; split.
    + intros H; injection H as <-.
      exists [], xs; repeat split; [intros y [] | exact Ex].
    + intros [[| y pre] [post [Heq [Hpre Hc]]]]; simpl in Heq.
      * congruence.
      * injection Heq as <- _.
        rewrite (Hpre x (or_introl eq_refl)) in Ex; discriminate.
    + intros H; apply IH in H as [pre [post [-> [Hpre Hc]]]].
      exists (x :: pre), post; repeat split; [| exact Hc].
      intros y [<- | Hy]; [exact Ex | apply Hpre, Hy].
    + intros [[| y pre] [post [Heq [Hpre Hc]]]]; simpl in Heq.
      * injection Heq as -> _; congruence.
      * injection Heq as _ ->; apply IH.
        exists pre, post; repeat split; [| exact Hc].
        intros z Hz; apply Hpre; right; exact Hz.
Qed.

Lemma getitem_Raise (t : Table) (label : string) (e : exn) :
  getitem t label = Raise e -> ~ In label (map fst t).
Proof.
  induction t as [| [l col] t IH]; simpl; [intros _ [] |].
  destruct (String.eqb_spec l label) as [-> | Hne]; [discriminate |].
  intros H [Heq | Hin]; [congruence | exact (IH H Hin)].
Qed.

Lemma join_items_Raise (xs : list cell) (e : exn) :
  join_items xs = Raise e -> e = TypeError_join.
Proof.
  induction xs as [| c xs IH]; simpl; [discriminate |].
  destruct c as [s | x |]; try (intros H; injection H as <-; reflexivity).
  destruct (join_items xs) as [rest | e']; simpl; [discriminate |].
  intros H; injection H as <-; apply IH; reflexivity.
Qed.

Lemma validate_required_Ok (encoding_info : Table) :
  validate_required encoding_info = Ok tt <->
  forall c, In c REQUIRED -> In c (map fst encoding_info).
Proof.
  rewrite validate_required_find; split.
  - destruct (find _ REQUIRED) eqn:E; [discriminate |].
    intros _ c Hc; pose proof (find_none _ _ E c Hc) as H.
    destruct (in_dec string_dec c (map fst encoding_info)) as [Hin | Hnin];
      [exact Hin |].
    apply missing_in_spec in Hnin; congruence.
  - intros Hall; destruct (find _ REQUIRED) as [c |] eqn:E; [| reflexivity].
    apply find_some in E as [Hc Hmiss].
    apply missing_in_spec in Hmiss; exfalso; exact (Hmiss (Hall c Hc)).
Qed.

(** The outcome once all required columns are there: the duplicate
    error, the TypeError of the join, or the AttributeError of
    [iterrows]. *)
Lemma encode_weighted_after_required (self : GenotypeDataframeAccessor)
    (encoding_info : Table) :
  validate_required encoding_info = Ok tt ->
  exists ids,
    getitem encoding_info "Variant ID" = Ok ids /\
    ((existsb (fun e => Nat.ltb 1 (snd e)) (value_counts ids) = false /\
      Accessor.encode_weighted self encoding_info =
        Raise (AttributeError_no_attribute "list" "iterrows")) \/
     (existsb (fun e => Nat.ltb 1 (snd e)) (value_counts ids) = true /\
      ((exists names,
           Accessor.encode_weighted self encoding_info =
             Raise (ValueError_duplicate_ids names)) \/
       Accessor.encode_weighted self encoding_info = Raise TypeError_join))).
Proof.
  intros Hreq.
  assert (Hin : In "Variant ID" (map fst encoding_info)).
  { apply (proj1 (validate_required_Ok encoding_info) Hreq); left; reflexivity. }
  destruct (getitem encoding_info "Variant ID") as [ids | e] eqn:Eget;
    [| exfalso; exact (getitem_Raise _ _ _ Eget Hin)].
  exists ids; split; [reflexivity |].
  unfold Accessor.encode_weighted, validate_unique, set_index.
  rewrite Hreq, Eget; simpl.
  destruct (existsb _ (value_counts ids)) eqn:Eex; [right | left].
  - split; [reflexivity |].
    destruct (join_items _) as [names | e] eqn:Ejoin; simpl.
    + left; exists names; reflexivity.
    + right; rewrite (join_items_Raise _ _ Ejoin); reflexivity.
  - split; reflexivity.
Qed.

(** X2.  [encode_weighted] of the accessor never returns: whatever the
    frame and the table, it raises, and the exception is the ValueError
    for a missing required column, the ValueError for duplicate ids, the
    TypeError of joining ids that are not strings, or the AttributeError
    of [iterrows] on a list.  It is never a KeyError: the lookup of the
    "Variant ID" column and the body of the loop are not reached in a
    state where they fail. *)
Theorem encode_weighted_outcomes :
  forall (self : GenotypeDataframeAccessor) (encoding_info : Table),
    exists e : exn,
      Accessor.encode_weighted self encoding_info = Raise e /\
      ((exists c, e = ValueError_missing_required c /\ In c REQUIRED) \/
       (exists names, e = ValueError_duplicate_ids names) \/
       e = TypeError_join \/
       e = AttributeError_no_attribute "list" "iterrows") /\
      (forall key, e <> KeyError key).
Proof.
  intros self encoding_info.
  destruct (validate_required encoding_info) as [[] | e0] eqn:Ereq.
  - destruct (encode_weighted_after_required self encoding_info Ereq)
      as [ids [_ [[_ H] | [_ [[names H] | H]]]]];
      eexists; (split; [exact H |]); split; try discriminate; eauto.
  - pose proof Ereq as Ereq'; rewrite validate_required_find in Ereq'.
    destruct (find _ REQUIRED) as [c |] eqn:E; [| discriminate].
    injection Ereq' as <-; apply find_some in E as [Hc _].
    exists (ValueError_missing_required c).
    unfold Accessor.encode_weighted; rewrite Ereq; simpl.
    split; [reflexivity | split; [| discriminate]].
    left; exists c; split; [reflexivity | exact Hc].
Qed.

(** X3.  The missing-column error names the first required column, in
    the order Variant ID, Alpha Value, Ref Allele, Alt Allele, Minor
    Allele Frequency, that the table lacks: [encode_weighted] raises it for
    [c] exactly when every required column before [c] is a column of the
    table and [c] is not. *)
Theorem encode_weighted_names_first_missing :
  forall (self : GenotypeDataframeAccessor) (encoding_info : Table)
         (c : string),
    Accessor.encode_weighted self encoding_info =
      Raise (ValueError_missing_required c) <->
    exists before after,
      REQUIRED = (before ++ c :: after)%list /\
      (forall c', In c' before -> In c' (map fst encoding_info)) /\
      ~ In c (map fst encoding_info).
Proof.
  intros self encoding_info c.
  assert (Hfind : find (missing_in (map fst encoding_info)) REQUIRED = Some c <->
                  exists before after,
                    REQUIRED = (before ++ c :: after)%list /\
                    (forall c', In c' before -> In c' (map fst encoding_info)) /\
                    ~ In c (map fst encoding_info)).
  { rewrite find_first; split; intros [pre [post [Heq [Hpre Hc]]]];
      exists pre, post; (split; [exact Heq |]); split.
    - intros c' Hc'; specialize (Hpre c' Hc').
      destruct (in_dec string_dec c' (map fst encoding_info)) as [Hin | Hnin];
        [exact Hin | apply missing_in_spec in Hnin; congruence].
    - apply missing_in_spec; exact Hc.
    - intros c' Hc'; destruct (missing_in _ c') eqn:E; [| reflexivity].
      apply missing_in_spec in E; exfalso; exact (E (Hpre c' Hc')).
    - apply missing_in_spec; exact Hc. }
  rewrite <- Hfind; split.
  - intros Hraise.
    destruct (validate_required encoding_info) as [[] | e0] eqn:Ereq.
    + destruct (encode_weighted_after_required self encoding_info Ereq)
        as [ids [_ [[_ H] | [_ [[names H] | H]]]]]; congruence.
    + unfold Accessor.encode_weighted in Hraise; rewrite Ereq in Hraise.
      simpl in Hraise; rewrite validate_required_find in Ereq.
      destruct (find _ REQUIRED); [congruence | discriminate].
  - apply encode_weighted_missing.
Qed.

(** ** What the duplicate check counts *)

Lemma cell_eqb_refl (c : cell) : cell_eqb c c = true.
Proof.
  destruct c as [s | [| q] |]; simpl; try reflexivity.
  - apply String.eqb_refl.
  - apply Qeq_bool_iff; reflexivity.
Qed.

Lemma cell_eqb_sym (c d : cell) : cell_eqb c d = cell_eqb d c.
Proof.
  destruct c as [s | [| p] |], d as [t | [| q] |]; simpl; try reflexivity.
  - apply String.eqb_sym.
  - destruct (Qeq_bool p q) eqn:E, (Qeq_bool q p) eqn:E'; try reflexivity.
    + apply Qeq_bool_iff in E; symmetry in E.
      apply Qeq_bool_iff in E; congruence.
    + apply Qeq_bool_iff in E'; symmetry in E'.
      apply Qeq_bool_iff in E'; congruence.
Qed.

Lemma cell_eqb_trans (c d e : cell) :
  cell_eqb c d = true -> cell_eqb d e = true -> cell_eqb c e = true.
Proof.
  destruct c as [s | [| p] |], d as [t | [| q] |], e as [u | [| r] |];
    simpl; try discriminate; try reflexivity.
  - intros H1 H2; apply String.eqb_eq in H1, H2; subst; apply String.eqb_refl.
  - intros H1 H2; apply Qeq_bool_iff in H1, H2; apply Qeq_bool_iff.
    rewrite H1; exact H2.
Qed.

Lemma count_cell_eqb (c d : cell) (xs : list cell) :
  cell_eqb c d = true -> count_cell c xs = count_cell d xs.
Proof.
  intros Hcd; induction xs as [| x xs IH]; simpl; [reflexivity |].
  rewrite IH; f_equal.
  destruct (cell_eqb c x) eqn:Ec, (cell_eqb d x) eqn:Ed; try reflexivity.
  - rewrite cell_eqb_sym in Hcd.
    rewrite (cell_eqb_trans d c x Hcd Ec) in Ed; discriminate.
  - rewrite (cell_eqb_trans c d x Hcd Ed) in Ec; discriminate.
Qed.

Lemma count_cell_filter (c : cell) (p : cell -> bool) (xs : list cell) :
  (forall x, cell_eqb c x = true -> p x = true) ->
  count_cell c (filter p xs) = count_cell c xs.
Proof.
  intros Hp; induction xs as [| x xs IH]; simpl; [reflexivity |].
  destruct (p x) eqn:Ex; simpl; rewrite IH; [reflexivity |].
  destruct (cell_eqb c x) eqn:Ec; [| reflexivity].
  rewrite (Hp x Ec) in Ex; discriminate.
Qed.

Lemma count_cell_In (c : cell) (xs : list cell) :
  1 <= count_cell c xs -> exists x, In x xs /\ cell_eqb c x = true.
Proof.
  induction xs as [| x xs IH]; simpl; [lia |].
  destruct (cell_eqb c x) eqn:Ec.
  - intros _; exists x; split; [left; reflexivity | exact Ec].
  - intros H; destruct (IH H) as [y [Hy Hc]].
    exists y; split; [right; exact Hy | exact Hc].
Qed.

(** Every cell of a column is represented among its distinct values. *)
Lemma distinct_represents (x : cell) (xs : list cell) :
  In x xs -> exists r, In r (distinct xs) /\ cell_eqb r x = true.
Proof.
  induction xs as [| y xs IH]; simpl; [intros [] |].
  intros [-> | Hin].
  - exists x; split; [left; reflexivity | apply cell_eqb_refl].
  - destruct (cell_eqb y x) eqn:Eyx.
    + exists y; split; [left; reflexivity | exact Eyx].
    + destruct (IH Hin) as [r [Hr Hrx]].
      exists r; split; [| exact Hrx].
      right; apply filter_In; split; [exact Hr |].
      destruct (cell_eqb y r) eqn:Eyr; [| reflexivity].
      rewrite (cell_eqb_trans y r x Eyr Hrx) in Eyx; discriminate.
Qed.

Lemma join_items_non_string (xs : list cell) (c : cell) :
  In c xs -> (forall s, c <> CStr s) -> join_items xs = Raise TypeError_join.
Proof.
  intros Hin Hc; induction xs as [| x xs IH]; simpl; [destruct Hin |].
  destruct Hin as [-> | Hin].
  - destruct c as [s | y |]; [exfalso; exact (Hc s eq_refl) | |]; reflexivity.
  - destruct x as [s | y |]; try reflexivity.
    rewrite (IH Hin); reflexivity.
Qed.

Lemma distinct_ids_pass (ids : list cell) (names : list string) :
  filter (fun c => negb (isna c)) ids = map CStr names ->
  NoDup names ->
  existsb (fun e => Nat.ltb 1 (snd e)) (value_counts ids) = false.
Proof.
  intros Hpresent Hnodup; unfold value_counts; rewrite Hpresent.
  destruct (existsb _ _) eqn:E; [| reflexivity].
  apply existsb_exists in E as [e [Hin Hlt]].
  apply in_map_iff in Hin as [c [<- Hc]]; simpl in Hlt.
  apply distinct_incl, in_map_iff in Hc as [s [<- _]].
  rewrite count_cell_strings in Hlt; apply Nat.ltb_lt in Hlt.
  pose proof (proj1 (NoDup_count_occ string_dec names) Hnodup s); lia.
Qed.

(** X4.  Rows without an identifier are not counted by the duplicate
    check: when the table has the five required columns and the
    identifiers that are present are pairwise distinct strings, however
    many rows have None or NaN as their identifier, [encode_weighted]
    passes both validations and stops at [iterrows] with an
    AttributeError, whatever the frame. *)
Theorem encode_weighted_ignores_missing_ids :
  forall (self : GenotypeDataframeAccessor) (encoding_info : Table)
         (ids : list cell) (names : list string),
    (forall c, In c REQUIRED -> In c (map fst encoding_info)) ->
    getitem encoding_info "Variant ID" = Ok ids ->
    filter (fun c => negb (isna c)) ids = map CStr names ->
    NoDup names ->
    validate_required encoding_info = Ok tt /\
    validate_unique encoding_info = Ok tt /\
    Accessor.encode_weighted self encoding_info =
      Raise (AttributeError_no_attribute "list" "iterrows").
Proof.
  intros self encoding_info ids names Hall Hget Hpresent Hnodup.
  assert (Hreq : validate_required encoding_info = Ok tt)
    by (apply validate_required_Ok; exact Hall).
  assert (Hex : existsb (fun e => Nat.ltb 1 (snd e)) (value_counts ids) = false)
    by exact (distinct_ids_pass ids names Hpresent Hnodup).
  split; [exact Hreq | split].
  - unfold validate_unique; rewrite Hget; simpl; rewrite Hex; reflexivity.
  - destruct (encode_weighted_after_required self encoding_info Hreq)
      as [ids' [Hget' [[_ H] | [Hdup _]]]]; [exact H |].
    rewrite Hget in Hget'; injection Hget' as <-; congruence.
Qed.

(** A table with the identifiers rs1 and rs2 and two rows without one. *)
Lemma encode_weighted_ignores_missing_ids_witness :
  Accessor.encode_weighted {| _obj := encoding_df |}
    encoding_info_missing_ids =
  Raise (AttributeError_no_attribute "list" "iterrows").
Proof.
  assert (Hall : forall c, In c REQUIRED ->
                           In c (map fst encoding_info_missing_ids)).
  { intros c Hc; exact Hc. }
  assert (Hnodup : NoDup ["rs1"; "rs2"]).
  { repeat constructor; simpl; intuition discriminate. }
  exact (proj2 (proj2 (encode_weighted_ignores_missing_ids
                         {| _obj := encoding_df |} encoding_info_missing_ids
                         [CStr "rs1"; CNone; CStr "rs2"; CNone]
                         ["rs1"; "rs2"] Hall eq_refl eq_refl Hnodup))).
Defined.

(** X5.  Repeated identifiers that are not strings do not give the
    duplicate-id error: when the table has the five required columns and
    a number occurs twice or more in its "Variant ID" column,
    [encode_weighted] raises the TypeError of [', '.join] while it builds
    the message of that error. *)
Theorem encode_weighted_numeric_duplicates :
  forall (self : GenotypeDataframeAccessor) (encoding_info : Table)
         (ids : list cell) (q : Q),
    (forall c, In c REQUIRED -> In c (map fst encoding_info)) ->
    getitem encoding_info "Variant ID" = Ok ids ->
    2 <= count_cell (CFloat (Fin q)) ids ->
    Accessor.encode_weighted self encoding_info = Raise TypeError_join.
Proof.
  intros self encoding_info ids q Hall Hget Hcount.
  assert (Hreq : validate_required encoding_info = Ok tt)
    by (apply validate_required_Ok; exact Hall).
  set (present := filter (fun c => negb (isna c)) ids).
  assert (Hpres : count_cell (CFloat (Fin q)) present =
                  count_cell (CFloat (Fin q)) ids).
  { apply count_cell_filter; intros x Hx.
    destruct x as [s | [| p] |]; simpl in Hx; try discriminate; reflexivity. }
  assert (Hone : 1 <= count_cell (CFloat (Fin q)) present) by lia.
  destruct (count_cell_In _ _ Hone) as [x [Hx Hqx]].
  destruct (distinct_represents x present Hx) as [r [Hr Hrx]].
  assert (Hrq : cell_eqb r (CFloat (Fin q)) = true).
  { rewrite cell_eqb_sym in Hqx; exact (cell_eqb_trans _ _ _ Hrx Hqx). }
  assert (Hrcount : 2 <= count_cell r present).
  { rewrite (count_cell_eqb r (CFloat (Fin q)) present Hrq); lia. }
  assert (Hrnum : forall s, r <> CStr s).
  { intros s ->; simpl in Hrq; discriminate. }
  assert (Hrep : In r (map fst (filter (fun e => Nat.ltb 1 (snd e))
                                       (value_counts ids)))).
  { apply in_map_iff; exists (r, count_cell r present); split; [reflexivity |].
    apply filter_In; split.
    - unfold value_counts; fold present.
      apply in_map_iff; exists r; split; [reflexivity | exact Hr].
    - simpl; apply Nat.ltb_lt; lia. }
  unfold Accessor.encode_weighted, validate_unique.
  rewrite Hreq, Hget; simpl.
  assert (Hex : existsb (fun e => Nat.ltb 1 (snd e)) (value_counts ids) = true).
  { apply existsb_exists; apply in_map_iff in Hrep as [e [_ He]].
    apply filter_In in He as [He Hn]; exists e; split; assumption. }
  rewrite Hex, (join_items_non_string _ r Hrep Hrnum); reflexivity.
Qed.

(** A table whose identifiers are the numbers 7, 8 and 7. *)
Lemma encode_weighted_numeric_duplicates_witness :
  Accessor.encode_weighted {| _obj := encoding_df |}
    encoding_info_numeric_ids = Raise TypeError_join.
Proof.
  assert (Hall : forall c, In c REQUIRED ->
                           In c (map fst encoding_info_numeric_ids)).
  { intros c Hc; exact Hc. }
  assert (Hcount : 2 <= count_cell (CFloat (Fin 7%Q))
                          (floats [7%Q; 8%Q; 7%Q])).
  { vm_compute; lia. }
  exact (encode_weighted_numeric_duplicates {| _obj := encoding_df |}
           encoding_info_numeric_ids (floats [7%Q; 8%Q; 7%Q]) 7%Q
           Hall eq_refl Hcount).
Defined.

(** ** The filters as operations on frames *)

Lemma filter_variants_maf_frame (array_maf : GenotypeArray -> pyfloat)
    (data : list (string * GenotypeArray)) (keep_min_freq : pyfloat) :
  filter_variants_maf array_maf {| _obj := genotype_frame data |}
    keep_min_freq =
  Ok (genotype_frame
        (filter (fun item => float_ge (array_maf (snd item)) keep_min_freq)
                data)).
Proof.
  unfold filter_variants_maf, genomics; simpl _obj.
  rewrite init_genotype_frame; simpl.
  unfold maf; simpl _obj; rewrite per_column_statistic; simpl.
  f_equal; apply loc_columns_genotype_frame.
  rewrite !map_map; reflexivity.
Qed.

Lemma filter_variants_hwe_frame (array_hwe_pval : GenotypeArray -> pyfloat)
    (data : list (string * GenotypeArray)) (cutoff : pyfloat) :
  filter_variants_hwe array_hwe_pval {| _obj := genotype_frame data |} cutoff =
  Ok (genotype_frame
        (filter (fun item => float_ge (array_hwe_pval (snd item)) cutoff
                             || isnan (array_hwe_pval (snd item)))
                data)).
Proof.
  unfold filter_variants_hwe, genomics; simpl _obj.
  rewrite init_genotype_frame; simpl.
  unfold hwe_pval; simpl _obj; rewrite per_column_statistic; simpl.
  f_equal; apply loc_columns_genotype_frame.
  rewrite map_map; simpl.
  induction data as [| item data' IH]; simpl; [reflexivity |].
  f_equal; apply IH.
Qed.

Lemma genomics_genotype_frame {A : Type}
    (data : list (string * GenotypeArray))
    (method : GenotypeDataframeAccessor -> result A) :
  genomics (genotype_frame data) method =
  method {| _obj := genotype_frame data |}.
Proof. unfold genomics; rewrite init_genotype_frame; reflexivity. Qed.

Lemma filter_twice {A : Type} (p : A -> bool) (xs : list A) :
  filter p (filter p xs) = filter p xs.
Proof.
  induction xs as [| x xs IH]; simpl; [reflexivity |].
  destruct (p x) eqn:E; simpl; [rewrite E, IH; reflexivity | exact IH].
Qed.

Lemma filter_swap {A : Type} (p q : A -> bool) (xs : list A) :
  filter p (filter q xs) = filter q (filter p xs).
Proof.
  induction xs as [| x xs IH]; simpl; [reflexivity |].
  destruct (p x) eqn:Ep, (q x) eqn:Eq; simpl;
    rewrite ?Ep, ?Eq, IH; reflexivity.
Qed.

(** X6.  A NaN threshold compares false with every statistic: on a frame
    of one or more genotype columns [filter_variants_maf] with a NaN
    threshold keeps no column at all, and [filter_variants_hwe] with a NaN
    cutoff keeps exactly the columns whose p-value is NaN. *)
Theorem filters_with_NaN_threshold :
  forall (array_maf array_hwe_pval : GenotypeArray -> pyfloat)
         (data : list (string * GenotypeArray)),
    data <> [] ->
    let self := {| _obj := genotype_frame data |} in
    filter_variants_maf array_maf self NaN = Ok [] /\
    filter_variants_hwe array_hwe_pval self NaN =
      Ok (genotype_frame
            (filter (fun item => isnan (array_hwe_pval (snd item))) data)).
Proof.
  intros array_maf array_hwe_pval data _ self; unfold self; split.
  - rewrite filter_variants_maf_frame.
    replace (filter _ data) with (@nil (string * GenotypeArray));
      [reflexivity |].
    induction data as [| item data IH]; simpl; [reflexivity |].
    destruct (array_maf (snd item)); simpl; exact IH.
  - rewrite filter_variants_hwe_frame; do 2 f_equal.
    apply filter_ext; intros item.
    destruct (array_hwe_pval (snd item)); reflexivity.
Qed.

Lemma filters_with_NaN_threshold_witness :
  filter_variants_maf Encoding.maf {| _obj := encoding_df |} NaN = Ok [] /\
  filter_variants_hwe (fun _ => NaN) {| _obj := encoding_df |} NaN =
    Ok encoding_df.
Proof.
  assert (Hne : encoding_data <> []) by discriminate.
  exact (filters_with_NaN_threshold Encoding.maf (fun _ => NaN)
           encoding_data Hne).
Defined.

(** X7.  Raising the threshold never lets in a column: on a frame of one
    or more genotype columns, every column that [filter_variants_maf]
    keeps at the larger of two thresholds it keeps at the smaller one,
    and the same holds for the cutoffs of [filter_variants_hwe]; both
    return columns of the frame only. *)
Theorem filters_are_monotone :
  forall (array_maf array_hwe_pval : GenotypeArray -> pyfloat)
         (data : list (string * GenotypeArray)) (low high : Q),
    data <> [] ->
    (low <= high)%Q ->
    let self := {| _obj := genotype_frame data |} in
    exists maf_low maf_high hwe_low hwe_high : DataFrame,
      filter_variants_maf array_maf self (Fin low) = Ok maf_low /\
      filter_variants_maf array_maf self (Fin high) = Ok maf_high /\
      filter_variants_hwe array_hwe_pval self (Fin low) = Ok hwe_low /\
      filter_variants_hwe array_hwe_pval self (Fin high) = Ok hwe_high /\
      incl maf_high maf_low /\ incl maf_low (genotype_frame data) /\
      incl hwe_high hwe_low /\ incl hwe_low (genotype_frame data).
Proof.
  intros array_maf array_hwe_pval data low high _ Hle self; unfold self.
  do 4 eexists.
  split; [apply filter_variants_maf_frame |].
  split; [apply filter_variants_maf_frame |].
  split; [apply filter_variants_hwe_frame |].
  split; [apply filter_variants_hwe_frame |].
  assert (Hge : forall x, float_ge x (Fin high) = true ->
                          float_ge x (Fin low) = true).
  { intros x H; apply float_ge_Fin in H as [q [-> Hq]].
    apply float_ge_Fin; exists q; split; [reflexivity |].
    exact (Qle_trans _ _ _ Hle Hq). }
  unfold genotype_frame; repeat split; intros col Hin;
    apply in_map_iff in Hin as [item [<- Hin]];
    apply filter_In in Hin as [Hin Hkeep];
    apply in_map_iff; exists item; (split; [reflexivity |]);
    try exact Hin; apply filter_In; (split; [exact Hin |]).
  - apply Hge; exact Hkeep.
  - apply orb_true_iff in Hkeep as [H | H]; apply orb_true_iff;
      [left; apply Hge; exact H | right; exact H].
Qed.

Lemma filters_are_monotone_witness :
  exists maf_low maf_high : DataFrame,
    filter_variants_maf Encoding.maf {| _obj := encoding_df |}
      (Fin (1 # 100)%Q) = Ok maf_low /\
    filter_variants_maf Encoding.maf {| _obj := encoding_df |}
      (Fin (6 # 10)%Q) = Ok maf_high /\
    incl maf_high maf_low.
Proof.
  assert (Hne : encoding_data <> []) by discriminate.
  assert (Hle : ((1 # 100) <= (6 # 10))%Q) by (vm_compute; discriminate).
  destruct (filters_are_monotone Encoding.maf (fun _ => NaN) encoding_data
              (1 # 100)%Q (6 # 10)%Q Hne Hle)
    as [ml [mh [_ [_ [H1 [H2 [_ [_ [H3 _]]]]]]]]].
  exists ml, mh; split; [exact H1 | split; [exact H2 | exact H3]].
Defined.

(** X8.  Filtering twice is filtering once: when [filter_variants_maf]
    (or [filter_variants_hwe]) leaves at least one column, the frame it
    returns is again accepted by the accessor, and the same filter with
    the same threshold returns that frame unchanged. *)
Theorem filters_are_idempotent :
  forall (array_maf array_hwe_pval : GenotypeArray -> pyfloat)
         (data : list (string * GenotypeArray))
         (keep_min_freq cutoff : pyfloat) (kept_maf kept_hwe : DataFrame),
    let self := {| _obj := genotype_frame data |} in
    filter_variants_maf array_maf self keep_min_freq = Ok kept_maf ->
    filter_variants_hwe array_hwe_pval self cutoff = Ok kept_hwe ->
    kept_maf <> [] ->
    kept_hwe <> [] ->
    genomics kept_maf
      (fun again => filter_variants_maf array_maf again keep_min_freq) =
      Ok kept_maf /\
    genomics kept_hwe
      (fun again => filter_variants_hwe array_hwe_pval again cutoff) =
      Ok kept_hwe.
Proof.
  intros array_maf array_hwe_pval data keep_min_freq cutoff kept_maf kept_hwe
         self Hmaf Hhwe _ _; unfold self in *.
  rewrite filter_variants_maf_frame in Hmaf; injection Hmaf as <-.
  rewrite filter_variants_hwe_frame in Hhwe; injection Hhwe as <-.
  split.
  - rewrite genomics_genotype_frame, filter_variants_maf_frame, filter_twice.
    reflexivity.
  - rewrite genomics_genotype_frame, filter_variants_hwe_frame, filter_twice.
    reflexivity.
Qed.

Lemma filters_are_idempotent_witness :
  genomics encoding_df
    (fun again => filter_variants_maf Encoding.maf again (Fin (1 # 100)%Q)) =
    Ok encoding_df /\
  genomics encoding_df
    (fun again => filter_variants_hwe (fun _ => NaN) again (Fin (5 # 100)%Q)) =
    Ok encoding_df.
Proof.
  assert (Hne : encoding_df <> []) by discriminate.
  exact (filters_are_idempotent Encoding.maf (fun _ => NaN) encoding_data
           (Fin (1 # 100)%Q) (Fin (5 # 100)%Q) encoding_df encoding_df
           eq_refl eq_refl Hne Hne).
Defined.

(** X9.  The two filters commute: when each of them leaves at least one
    column of a frame of genotype columns, applying the HWE filter to the
    result of the MAF filter and the MAF filter to the result of the HWE
    filter give the same frame, whose columns are the columns that both
    filters keep. *)
Theorem filters_commute :
  forall (array_maf array_hwe_pval : GenotypeArray -> pyfloat)
         (data : list (string * GenotypeArray))
         (keep_min_freq cutoff : pyfloat) (kept_maf kept_hwe : DataFrame),
    let self := {| _obj := genotype_frame data |} in
    filter_variants_maf array_maf self keep_min_freq = Ok kept_maf ->
    filter_variants_hwe array_hwe_pval self cutoff = Ok kept_hwe ->
    kept_maf <> [] ->
    kept_hwe <> [] ->
    exists both : DataFrame,
      genomics kept_maf
        (fun next => filter_variants_hwe array_hwe_pval next cutoff) =
        Ok both /\
      genomics kept_hwe
        (fun next => filter_variants_maf array_maf next keep_min_freq) =
        Ok both /\
      (forall col, In col both <-> In col kept_maf /\ In col kept_hwe).
Proof.
  intros array_maf array_hwe_pval data keep_min_freq cutoff kept_maf kept_hwe
         self Hmaf Hhwe _ _; unfold self in *.
  rewrite filter_variants_maf_frame in Hmaf; injection Hmaf as <-.
  rewrite filter_variants_hwe_frame in Hhwe; injection Hhwe as <-.
  eexists; split; [| split].
  - rewrite genomics_genotype_frame, filter_variants_hwe_frame; reflexivity.
  - rewrite genomics_genotype_frame, filter_variants_maf_frame, filter_swap.
    reflexivity.
  - intros col; unfold genotype_frame; rewrite !in_map_iff; split.
    + intros [item [<- Hin]].
      apply filter_In in Hin as [Hin Hh]; apply filter_In in Hin as [Hin Hm].
      split; exists item; (split; [reflexivity |]); apply filter_In; auto.
    + intros [[item [<- Hin]] [item' [Heq Hin']]].
      assert (item' = item) as ->.
      { destruct item, item'; simpl in Heq; congruence. }
      exists item; split; [reflexivity |].
      apply filter_In in Hin as [Hin Hm]; apply filter_In in Hin' as [_ Hh].
      apply filter_In; split; [apply filter_In; auto | exact Hh].
Qed.

Lemma filters_commute_witness :
  exists both : DataFrame,
    genomics encoding_df
      (fun next => filter_variants_hwe (fun _ => NaN) next (Fin (5 # 100)%Q)) =
      Ok both /\
    genomics encoding_df
      (fun next => filter_variants_maf Encoding.maf next (Fin (1 # 100)%Q)) =
      Ok both.
Proof.
  assert (Hne : encoding_df <> []) by discriminate.
  destruct (filters_commute Encoding.maf (fun _ => NaN) encoding_data
              (Fin (1 # 100)%Q) (Fin (5 # 100)%Q) encoding_df encoding_df
              eq_refl eq_refl Hne Hne) as [both [H1 [H2 _]]].
  exists both; split; [exact H1 | exact H2].
Defined.

(** ** The table of variant descriptions *)

Lemma comprehension_genotype_frame {B : Type} (f : GenotypeArray -> B)
    (data : list (string * GenotypeArray)) :
  comprehension
    (fun col => arr <- series_genomics col ;; Ok (fst col, f arr))
    (genotype_frame data) =
  Ok (map (fun item => (fst item, f (snd item))) data).
Proof.
  induction data as [| item data IH]; [reflexivity |].
  change (genotype_frame (item :: data))
    with ((fst item, GenotypeValues (snd item)) :: genotype_frame data).
  cbn [comprehension]; rewrite IH; reflexivity.
Qed.

Section DictFacts.

Context {Info : Type}.
Implicit Types (d items : list (string * Info)) (k : string) (v : Info).

Let step d (item : string * Info) := dict_set d (fst item) (snd item).

Lemma dict_get_set d k v k' :
  dict_get (dict_set d k v) k' =
  if String.eqb k k' then Some v else dict_get d k'.
Proof.
  induction d as [| [k0 v0] d IH]; simpl.
  - reflexivity.
  - destruct (String.eqb_spec k0 k) as [-> | Hne]; simpl.
    + destruct (String.eqb k k'); reflexivity.
    + rewrite IH; destruct (String.eqb_spec k0 k') as [-> | Hne'];
        [| reflexivity].
      destruct (String.eqb_spec k k'); [congruence | reflexivity].
Qed.

Lemma dict_set_present d k v :
  In k (map fst d) -> map fst (dict_set d k v) = map fst d.
Proof.
  induction d as [| [k0 v0] d IH]; simpl; [intros [] |].
  destruct (String.eqb_spec k0 k) as [-> | Hne]; [reflexivity |].
  intros [Heq | Hin]; [congruence |]; simpl; rewrite IH; auto.
Qed.

Lemma dict_set_absent d k v :
  ~ In k (map fst d) -> dict_set d k v = (d ++ [(k, v)])%list.
Proof.
  induction d as [| [k0 v0] d IH]; simpl; [reflexivity |].
  intros Hnin; destruct (String.eqb_spec k0 k) as [-> | Hne].
  - exfalso; apply Hnin; left; reflexivity.
  - rewrite IH; [reflexivity | intros H; apply Hnin; right; exact H].
Qed.

Lemma dict_set_keys d k v (k' : string) :
  In k' (map fst (dict_set d k v)) <-> In k' (map fst d) \/ k' = k.
Proof.
  destruct (in_dec string_dec k (map fst d)) as [Hin | Hnin].
  - rewrite (dict_set_present d k v Hin); split; [auto |].
    intros [H | ->]; assumption.
  - rewrite (dict_set_absent d k v Hnin), map_app, in_app_iff; simpl.
    split; (intros [H | H]; [left; exact H | right]); intuition.
Qed.

Lemma dict_set_NoDup d k v :
  NoDup (map fst d) -> NoDup (map fst (dict_set d k v)).
Proof.
  intros Hnd; destruct (in_dec string_dec k (map fst d)) as [Hin | Hnin].
  - rewrite (dict_set_present d k v Hin); exact Hnd.
  - rewrite (dict_set_absent d k v Hnin), map_app; simpl.
    apply NoDup_app; [exact Hnd | repeat constructor; intros [] |].
    intros x Hx [<- | []]; contradiction.
Qed.

Lemma fold_dict_NoDup items d :
  NoDup (map fst d) -> NoDup (map fst (fold_left step items d)).
Proof.
  revert d; induction items as [| item items IH]; intros d Hnd; simpl;
    [exact Hnd |].
  apply IH, dict_set_NoDup, Hnd.
Qed.

Lemma fold_dict_keys items d (k : string) :
  In k (map fst (fold_left step items d)) <->
  In k (map fst d) \/ In k (map fst items).
Proof.
  revert d; induction items as [| item items IH]; intros d; simpl.
  - intuition.
  - rewrite IH; unfold step; rewrite dict_set_keys; intuition.
Qed.

Lemma find_last {A : Type} (p : A -> bool) (xs : list A) (x : A) :
  find p (xs ++ [x]) =
  match find p xs with
  | Some y => Some y
  | None => if p x then Some x else None
  end.
Proof.
  induction xs as [| y xs IH]; simpl; [reflexivity |].
  destruct (p y); [reflexivity | exact IH].
Qed.

Lemma fold_dict_get items d k :
  dict_get (fold_left step items d) k =
  match find (fun item => String.eqb (fst item) k) (rev items) with
  | Some item => Some (snd item)
  | None => dict_get d k
  end.
Proof.
  revert d; induction items as [| item items IH]; intros d; simpl;
    [reflexivity |].
  rewrite IH, find_last; unfold step.
  destruct (find _ (rev items)); [reflexivity |].
  rewrite dict_get_set; destruct (String.eqb (fst item) k); reflexivity.
Qed.

Lemma fold_dict_fresh items d :
  NoDup (map fst d ++ map fst items) ->
  fold_left step items d = (d ++ items)%list.
Proof.
  revert d; induction items as [| [k v] items IH]; intros d Hnd; simpl.
  - rewrite app_nil_r; reflexivity.
  - change (step d (k, v)) with (dict_set d k v).
    assert (Hnin : ~ In k (map fst d)).
    { intros Hin; apply NoDup_remove_2 in Hnd.
      apply Hnd, in_or_app; left; exact Hin. }
    rewrite (dict_set_absent d k v Hnin), IH.
    + rewrite <- app_assoc; reflexivity.
    + rewrite map_app, <- app_assoc; exact Hnd.
Qed.

End DictFacts.

Lemma find_map {A B : Type} (g : A -> B) (p : B -> bool) (xs : list A) :
  find p (map g xs) = option_map g (find (fun x => p (g x)) xs).
Proof.
  induction xs as [| x xs IH]; simpl; [reflexivity |].
  destruct (p (g x)); [reflexivity | exact IH].
Qed.

(** X11.  [variant_info] has one row per column label: its index has no
    duplicates and holds exactly the labels of the frame; the row under a
    label describes the last column with that label; and when the labels
    of the frame are distinct the rows are the columns' descriptions in
    column order.  On the frame without columns it is the empty table. *)
Theorem variant_info_rows :
  forall (Info : Type) (series_variant_info : GenotypeArray -> Info)
         (data : list (string * GenotypeArray)),
    exists rows : list (string * Info),
      variant_info series_variant_info {| _obj := genotype_frame data |} =
        Ok rows /\
      NoDup (map fst rows) /\
      (forall label, In label (map fst rows) <-> In label (map fst data)) /\
      (forall label,
          dict_get rows label =
          option_map (fun item => series_variant_info (snd item))
            (find (fun item => String.eqb (fst item) label) (rev data))) /\
      (NoDup (map fst data) ->
       rows = map (fun item => (fst item, series_variant_info (snd item)))
                  data) /\
      (data = [] -> rows = []).
Proof.
  intros Info series_variant_info data.
  set (describe := fun item : string * GenotypeArray =>
                     (fst item, series_variant_info (snd item))).
  eexists; split.
  - unfold variant_info; simpl _obj.
    rewrite (comprehension_genotype_frame series_variant_info); reflexivity.
  - split; [apply fold_dict_NoDup; constructor |].
    split; [| split; [| split]].
    + intros label; rewrite fold_dict_keys; simpl.
      rewrite map_map; simpl; intuition.
    + intros label; rewrite fold_dict_get, <- map_rev, find_map; simpl.
      destruct (find _ (rev data)); reflexivity.
    + intros Hnd; rewrite fold_dict_fresh; [reflexivity |].
      simpl; rewrite map_map; exact Hnd.
    + intros ->; reflexivity.
Qed.
